(** * B12 application submission: canonical payload and signature

    A shallow embedding of [submit.py].  Python text ([str]) is a list of
    Unicode code points, binary data ([bytes]) a list of octets, both over
    [N].  The process environment is a finite map, the payload dictionary an
    insertion-ordered association list, and the effects of [main]
    (printing, exiting, calling [requests.post]) are recorded in an event
    trace. *)

From Stdlib Require Import NArith ZArith List String Ascii Lia Bool Permutation Sorted.
From stdpp Require Import base decidable list sorting gmap.
Import ListNotations.
Local Open Scope N_scope.

(** ** Python text and bytes *)

(** A [str] is a sequence of code points, a [bytes] a sequence of octets. *)
Abbreviation str := (list N) (only parsing).
Abbreviation bytes := (list N) (only parsing).

(** An ASCII literal of the source as a [str]. *)
Fixpoint lit (s : string) : str :=
  match s with
  | EmptyString => []
  | String a r => N_of_ascii a :: lit r
  end.

(** As [lit], with every apostrophe of the literal read as a double quote
    (used for expected JSON texts, none of which holds an apostrophe). *)
Definition jlit (s : string) : str :=
  map (fun c => if c =? 39 then 34 else c) (lit s).

Definition ch_quote : N := 34.
Definition ch_backslash : N := 92.
Definition ch_newline : N := 10.

(** [str.isspace] for one code point (CPython's [_PyUnicode_IsWhitespace]). *)
Definition is_space (c : N) : bool :=
  ((9 <=? c) && (c <=? 13)) || ((28 <=? c) && (c <=? 32))
  || (c =? 133) || (c =? 160) || (c =? 5760)
  || ((8192 <=? c) && (c <=? 8202))
  || (c =? 8232) || (c =? 8233) || (c =? 8239) || (c =? 8287) || (c =? 12288).

Fixpoint lstrip (s : str) : str :=
  match s with
  | [] => []
  | c :: r => if is_space c then lstrip r else s
  end.

Definition rstrip (s : str) : str := rev (lstrip (rev s)).

(** [value.strip()] *)
Definition strip (s : str) : str := rstrip (lstrip s).

Fixpoint startswith (p s : str) : bool :=
  match p, s with
  | [], _ => true
  | _ :: _, [] => false
  | a :: p', b :: s' => (a =? b) && startswith p' s'
  end.

(** [s.replace(old, new)] for a non-empty [old]: every occurrence, scanning
    left to right without overlap.  [skip] counts the characters of a match
    still to be dropped. *)
Fixpoint replace_from (old new : str) (skip : nat) (s : str) : str :=
  match s with
  | [] => []
  | c :: r =>
      match skip with
      | S k => replace_from old new k r
      | O =>
          if startswith old s
          then new ++ replace_from old new (Nat.pred (length old)) r
          else c :: replace_from old new 0 r
      end
  end.

Definition str_replace (old new s : str) : str :=
  match old with
  | [] => new ++ flat_map (fun c => c :: new) s
  | _ :: _ => replace_from old new 0 s
  end.

(** Decimal digits of a number, most significant first ([str(n)], ["%d"]). *)
Fixpoint dec_digits (fuel : nat) (n : N) (acc : str) : str :=
  match fuel with
  | O => acc
  | S f =>
      let acc' := (48 + n mod 10) :: acc in
      if n / 10 =? 0 then acc' else dec_digits f (n / 10) acc'
  end.

Definition str_of_N (n : N) : str := dec_digits (S (N.to_nat (N.log2 n))) n [].

(** ["%0<w>d" % n]: zero-padded on the left to at least [w] characters. *)
Definition fmt_0d (w : nat) (n : N) : str :=
  let d := str_of_N n in repeat 48 (w - length d)%nat ++ d.

Definition hex_digit (d : N) : N := if d <? 10 then 48 + d else 87 + d.

(** ['{0:04x}'.format(n)] for [n < 0x10000]. *)
Definition fmt_04x (n : N) : str :=
  [hex_digit (n / 4096 mod 16); hex_digit (n / 256 mod 16);
   hex_digit (n / 16 mod 16); hex_digit (n mod 16)].

(** Exceptions the modelled code can raise. *)
Inductive exn : Type :=
  | UnicodeEncodeError (codepoint : N).

(** Result of a computation that may raise or end the process. *)
Inductive outcome (A : Type) : Type :=
  | Return (a : A)
  | Exit (code : N)
  | Raise (e : exn).
Arguments Return {A} a.
Arguments Exit {A} code.
Arguments Raise {A} e.

(** UTF-8 encoding of one code point; lone surrogates are refused, as
    [str.encode('utf-8')] does. *)
Definition utf8_char (c : N) : exn + bytes :=
  if c <? 0x80 then inr [c]
  else if c <? 0x800 then
    inr [N.lor 0xC0 (N.shiftr c 6); N.lor 0x80 (N.land c 0x3F)]
  else if c <? 0x10000 then
    if (0xD800 <=? c) && (c <=? 0xDFFF) then inl (UnicodeEncodeError c)
    else inr [N.lor 0xE0 (N.shiftr c 12);
              N.lor 0x80 (N.land (N.shiftr c 6) 0x3F);
              N.lor 0x80 (N.land c 0x3F)]
  else if c <? 0x110000 then
    inr [N.lor 0xF0 (N.shiftr c 18);
         N.lor 0x80 (N.land (N.shiftr c 12) 0x3F);
         N.lor 0x80 (N.land (N.shiftr c 6) 0x3F);
         N.lor 0x80 (N.land c 0x3F)]
  else inl (UnicodeEncodeError c).

(** [s.encode('utf-8')] *)
Fixpoint utf8_encode (s : str) : exn + bytes :=
  match s with
  | [] => inr []
  | c :: r =>
      match utf8_char c with
      | inl e => inl e
      | inr bs =>
          match utf8_encode r with
          | inl e => inl e
          | inr rest => inr (bs ++ rest)
          end
      end
  end.

(** A text is encodable when it holds Unicode scalar values only. *)
Definition scalar (c : N) : bool :=
  (c <? 0xD800) || ((0xDFFF <? c) && (c <? 0x110000)).
Definition encodable (s : str) : bool := forallb scalar s.

(** ** The JSON encoder ([json.dumps]) *)

Module Json.

(** [ESCAPE_DCT] of [json.encoder]: the replacement of one character
    matched by [ESCAPE], that is the double quote, the backslash and the
    code points below U+0020. *)
Definition escape_char (c : N) : str :=
  if c =? ch_quote then [ch_backslash; ch_quote]
  else if c =? ch_backslash then [ch_backslash; ch_backslash]
  else if c =? 10 then [ch_backslash; 110]
  else if c =? 13 then [ch_backslash; 114]
  else if c =? 9 then [ch_backslash; 116]
  else if c =? 12 then [ch_backslash; 102]
  else if c =? 8 then [ch_backslash; 98]
  else if c <? 0x20 then ch_backslash :: 117 :: fmt_04x c
  else [c].

(** [encode_basestring]: used when [ensure_ascii=False]. *)
Definition encode_basestring (s : str) : str :=
  ch_quote :: flat_map escape_char s ++ [ch_quote].

(** Python orders [str] by code point, lexicographically. *)
Fixpoint str_compare (a b : str) : comparison :=
  match a, b with
  | [], [] => Eq
  | [], _ :: _ => Lt
  | _ :: _, [] => Gt
  | x :: a', y :: b' =>
      match x ?= y with
      | Eq => str_compare a' b'
      | o => o
      end
  end.

(** Tuples [(key, value)] are ordered by key, then by value. *)
Definition item_compare (x y : str * str) : comparison :=
  match str_compare x.1 y.1 with
  | Eq => str_compare x.2 y.2
  | o => o
  end.

Definition item_le (x y : str * str) : Prop := item_compare x y <> Gt.

#[global] Instance item_le_dec : RelDecision item_le.
Proof. intros x y. unfold item_le. apply _. Defined.

(** [sorted(dct.items())] *)
Definition sorted_items (d : list (str * str)) : list (str * str) :=
  merge_sort item_le d.

Definition join (sep : str) (parts : list str) : str :=
  match parts with
  | [] => []
  | p :: ps => p ++ flat_map (fun q => sep ++ q) ps
  end.

(** One [key: value] member with the key separator [key_sep]. *)
Definition member (key_sep : str) (kv : str * str) : str :=
  encode_basestring kv.1 ++ key_sep ++ encode_basestring kv.2.

(** [json.dumps(d, ensure_ascii=False, separators=(item_sep, key_sep),
    sort_keys=True)] for a dictionary [d] of strings, given by its items in
    insertion order. *)
Definition dumps (item_sep key_sep : str) (d : list (str * str)) : str :=
  match d with
  | [] => lit "{}"
  | _ :: _ =>
      lit "{" ++ join item_sep (map (member key_sep) (sorted_items d)) ++ lit "}"
  end.

End Json.

(** ** [create_payload] *)

(** The dictionary literal of [create_payload], in the order it is written. *)
Definition payload_dict (timestamp name email resume_link repository_link
                         action_run_link : str) : list (str * str) :=
  [ (lit "timestamp", timestamp);
    (lit "name", name);
    (lit "email", email);
    (lit "resume_link", resume_link);
    (lit "repository_link", repository_link);
    (lit "action_run_link", action_run_link) ].

Definition create_payload (timestamp name email resume_link repository_link
                           action_run_link : str) : str :=
  Json.dumps (lit ",") (lit ":")
    (payload_dict timestamp name email resume_link repository_link action_run_link).

(** ** SHA-256 ([hashlib.sha256]) *)

Module Sha256.

Definition mask32 : N := 0xFFFFFFFF.
Definition add32 (x y : N) : N := N.land (x + y) mask32.
Definition rotr (n x : N) : N :=
  N.lor (N.shiftr x n) (N.land (N.shiftl x (32 - n)) mask32).
Definition not32 (x : N) : N := N.lxor x mask32.

Definition ch (x y z : N) : N := N.lxor (N.land x y) (N.land (not32 x) z).
Definition maj (x y z : N) : N :=
  N.lxor (N.lxor (N.land x y) (N.land x z)) (N.land y z).
Definition bsig0 (x : N) : N := N.lxor (N.lxor (rotr 2 x) (rotr 13 x)) (rotr 22 x).
Definition bsig1 (x : N) : N := N.lxor (N.lxor (rotr 6 x) (rotr 11 x)) (rotr 25 x).
Definition ssig0 (x : N) : N := N.lxor (N.lxor (rotr 7 x) (rotr 18 x)) (N.shiftr x 3).
Definition ssig1 (x : N) : N := N.lxor (N.lxor (rotr 17 x) (rotr 19 x)) (N.shiftr x 10).

(** The sixty-four round constants. *)
Definition round_constants : list N :=
  [0x428A2F98; 0x71374491; 0xB5C0FBCF; 0xE9B5DBA5] ++
  [0x3956C25B; 0x59F111F1; 0x923F82A4; 0xAB1C5ED5] ++
  [0xD807AA98; 0x12835B01; 0x243185BE; 0x550C7DC3] ++
  [0x72BE5D74; 0x80DEB1FE; 0x9BDC06A7; 0xC19BF174] ++
  [0xE49B69C1; 0xEFBE4786; 0x0FC19DC6; 0x240CA1CC] ++
  [0x2DE92C6F; 0x4A7484AA; 0x5CB0A9DC; 0x76F988DA] ++
  [0x983E5152; 0xA831C66D; 0xB00327C8; 0xBF597FC7] ++
  [0xC6E00BF3; 0xD5A79147; 0x06CA6351; 0x14292967] ++
  [0x27B70A85; 0x2E1B2138; 0x4D2C6DFC; 0x53380D13] ++
  [0x650A7354; 0x766A0ABB; 0x81C2C92E; 0x92722C85] ++
  [0xA2BFE8A1; 0xA81A664B; 0xC24B8B70; 0xC76C51A3] ++
  [0xD192E819; 0xD6990624; 0xF40E3585; 0x106AA070] ++
  [0x19A4C116; 0x1E376C08; 0x2748774C; 0x34B0BCB5] ++
  [0x391C0CB3; 0x4ED8AA4A; 0x5B9CCA4F; 0x682E6FF3] ++
  [0x748F82EE; 0x78A5636F; 0x84C87814; 0x8CC70208] ++
  [0x90BEFFFA; 0xA4506CEB; 0xBEF9A3F7; 0xC67178F2].

(** The chaining value: eight 32-bit words. *)
Record state : Type := State {
  ha : N; hb : N; hc : N; hd : N; he : N; hf : N; hg : N; hh : N
}.

Definition initial : state :=
  State 0x6A09E667 0xBB67AE85 0x3C6EF372 0xA54FF53A
        0x510E527F 0x9B05688C 0x1F83D9AB 0x5BE0CD19.

(** Big-endian words of a block of octets. *)
Fixpoint words_of (bs : bytes) : list N :=
  match bs with
  | b0 :: b1 :: b2 :: b3 :: r =>
      (b0 * 16777216 + b1 * 65536 + b2 * 256 + b3) :: words_of r
  | _ => []
  end.

(** Extends the message schedule by [n] words; [w] holds the schedule so
    far, most recent word first. *)
Fixpoint extend (n : nat) (w : list N) : list N :=
  match n with
  | O => w
  | S k =>
      let x := add32 (add32 (ssig1 (nth 1 w 0)) (nth 6 w 0))
                     (add32 (ssig0 (nth 14 w 0)) (nth 15 w 0)) in
      extend k (x :: w)
  end.

Definition schedule (block : bytes) : list N :=
  rev (extend 48 (rev (words_of block))).

Definition round (s : state) (kw : N * N) : state :=
  let t1 := add32 (add32 (add32 (hh s) (bsig1 (he s))) (ch (he s) (hf s) (hg s)))
                  (add32 kw.1 kw.2) in
  let t2 := add32 (bsig0 (ha s)) (maj (ha s) (hb s) (hc s)) in
  State (add32 t1 t2) (ha s) (hb s) (hc s) (add32 (hd s) t1) (he s) (hf s) (hg s).

Definition compress (s : state) (block : bytes) : state :=
  let r := fold_left round (combine round_constants (schedule block)) s in
  State (add32 (ha s) (ha r)) (add32 (hb s) (hb r)) (add32 (hc s) (hc r))
        (add32 (hd s) (hd r)) (add32 (he s) (he r)) (add32 (hf s) (hf r))
        (add32 (hg s) (hg r)) (add32 (hh s) (hh r)).

(** The octets of [n], big-endian, on [k] octets. *)
Fixpoint be_bytes (k : nat) (n : N) : bytes :=
  match k with
  | O => []
  | S j => N.land (N.shiftr n (8 * N.of_nat j)) 0xFF :: be_bytes j n
  end.

(** Message padding: a one bit, zeros up to 56 modulo 64 octets, then the
    bit length on eight octets. *)
Definition pad (msg : bytes) : bytes :=
  let len := N.of_nat (length msg) in
  let zeros := N.to_nat ((119 - len mod 64) mod 64) in
  msg ++ 0x80 :: repeat 0 zeros ++ be_bytes 8 (8 * len).

(** Absorbs the padded message block by block. *)
Fixpoint absorb (fuel : nat) (s : state) (bs : bytes) : state :=
  match fuel, bs with
  | S f, _ :: _ => absorb f (compress s (take 64 bs)) (drop 64 bs)
  | _, _ => s
  end.

Definition word_bytes (w : N) : bytes := be_bytes 4 w.

Definition state_bytes (s : state) : bytes :=
  word_bytes (ha s) ++ word_bytes (hb s) ++ word_bytes (hc s) ++ word_bytes (hd s)
  ++ word_bytes (he s) ++ word_bytes (hf s) ++ word_bytes (hg s) ++ word_bytes (hh s).

(** [hashlib.sha256(msg).digest()] *)
Definition digest (msg : bytes) : bytes :=
  let p := pad msg in state_bytes (absorb (length p) initial p).

Definition block_size : nat := 64.

End Sha256.

(** [bytes.hex()]: two lowercase hexadecimal digits per octet. *)
Definition hex_of_bytes (bs : bytes) : str :=
  flat_map (fun b => [hex_digit (b / 16); hex_digit (b mod 16)]) bs.

(** ** HMAC ([hmac.new(key, msg, hashlib.sha256)]) *)

Module Hmac.

(** A [hashlib] object holds what it was fed; [update] appends to it and
    [digest] hashes the whole. *)
Record hash_obj : Type := HashObj { fed : bytes }.

Definition hash_new : hash_obj := HashObj [].
Definition hash_update (h : hash_obj) (data : bytes) : hash_obj :=
  HashObj (fed h ++ data).
Definition hash_digest (h : hash_obj) : bytes := Sha256.digest (fed h).

(** The [HMAC] object: the inner and the outer hash. *)
Record t : Type := Make { _inner : hash_obj; _outer : hash_obj }.

(** [key.translate(trans_36)] and [key.translate(trans_5C)]: every octet
    xored with the constant. *)
Definition translate (x : N) (key : bytes) : bytes := map (N.lxor x) key.

(** [key.ljust(n, fill)] *)
Definition ljust (n : nat) (fill : N) (b : bytes) : bytes :=
  b ++ repeat fill (n - length b)%nat.

(** The key brought to the block size: hashed when longer, then padded with
    zero octets. *)
Definition block_key (key : bytes) : bytes :=
  let key' :=
    if (Sha256.block_size <? length key)%nat then Sha256.digest key else key in
  ljust Sha256.block_size 0 key'.

Definition update (h : t) (msg : bytes) : t :=
  Make (hash_update (_inner h) msg) (_outer h).

(** [hmac.new(key, msg, hashlib.sha256)] *)
Definition new (key msg : bytes) : t :=
  let k := block_key key in
  let outer := hash_update hash_new (translate 0x5C k) in
  let inner := hash_update hash_new (translate 0x36 k) in
  update (Make inner outer) msg.

(** [digest()]: the outer hash, copied, fed the inner digest. *)
Definition digest (h : t) : bytes :=
  hash_digest (hash_update (_outer h) (hash_digest (_inner h))).

Definition hexdigest (h : t) : str := hex_of_bytes (digest h).

(** The construction in the words of the specification (RFC 2104):
    [H ((K0 xor opad) || H ((K0 xor ipad) || text))], where [K0] is the key
    hashed if longer than a block and then zero-padded to the block size. *)
Definition rfc2104 (key text : bytes) : bytes :=
  let k0 :=
    (if (64 <? length key)%nat then Sha256.digest key else key) in
  let k0 := k0 ++ repeat 0 (64 - length k0)%nat in
  let ipad := map (fun b => N.lxor b 0x36) k0 in
  let opad := map (fun b => N.lxor b 0x5C) k0 in
  Sha256.digest (opad ++ Sha256.digest (ipad ++ text)).

End Hmac.

(** ** [compute_signature] *)

Definition compute_signature (payload secret : str) : outcome str :=
  match utf8_encode payload with
  | inl e => Raise e
  | inr payload_bytes =>
      match utf8_encode secret with
      | inl e => Raise e
      | inr secret_bytes =>
          let signature := Hmac.new secret_bytes payload_bytes in
          Return (Hmac.hexdigest signature)
      end
  end.

(** ** [generate_timestamp] *)

(** An aware [datetime] in UTC, as [datetime.now(timezone.utc)] returns it. *)
Record datetime : Type := Datetime {
  year : N; month : N; day : N;
  hour : N; minute : N; second : N; microsecond : N
}.

(** The field ranges every [datetime] object satisfies. *)
Definition datetime_ok (d : datetime) : bool :=
  (1 <=? year d) && (year d <=? 9999)
  && (1 <=? month d) && (month d <=? 12)
  && (1 <=? day d) && (day d <=? 31)
  && (hour d <? 24) && (minute d <? 60) && (second d <? 60)
  && (microsecond d <? 1000000).

(** [d.isoformat(timespec='milliseconds')] for a UTC [d]: the date, ['T'],
    the time with the microseconds cut to milliseconds, and the offset of
    [timezone.utc]. *)
Definition isoformat_milliseconds (d : datetime) : str :=
  fmt_0d 4 (year d) ++ lit "-" ++ fmt_0d 2 (month d) ++ lit "-" ++ fmt_0d 2 (day d)
  ++ lit "T"
  ++ fmt_0d 2 (hour d) ++ lit ":" ++ fmt_0d 2 (minute d) ++ lit ":"
  ++ fmt_0d 2 (second d) ++ lit "." ++ fmt_0d 3 (microsecond d / 1000)
  ++ lit "+00:00".

(** [generate_timestamp], given the instant the clock returned. *)
Definition generate_timestamp (now : datetime) : str :=
  str_replace (lit "+00:00") (lit "Z") (isoformat_milliseconds now).

(** The shape [YYYY-MM-DDTHH:MM:SS.mmmZ]. *)
Definition is_digit (c : N) : bool := (48 <=? c) && (c <=? 57).

Fixpoint matches_shape (shape : string) (s : str) : bool :=
  match shape, s with
  | EmptyString, [] => true
  | String a shape', c :: s' =>
      (if (N_of_ascii a =? 100) then is_digit c else c =? N_of_ascii a)
      && matches_shape shape' s'
  | _, _ => false
  end.

(** Digits are written [d] in the shape; every other character stands for
    itself. *)
Definition is_iso_millis_z (s : str) : bool :=
  matches_shape "dddd-dd-ddTdd:dd:dd.dddZ" s.

(** ** Effects: console, exit status, network *)

Record response : Type := Response {
  status_code : N;
  reason : str;
  url : str;
  headers_repr : str;   (* the text of [dict(response.headers)] *)
  text : str
}.

(** What a run does that can be seen from outside: the texts handed to the
    two streams, one event for each [print], and the calls
    [requests.post(target, data=data, headers=headers, timeout=timeout)].
    One call may exchange several HTTP messages (the library follows
    redirects); the event stands for the call. *)
Inductive event : Type :=
  | Stdout (written : str)
  | Stderr (written : str)
  | PostCall (target data : str) (headers : list (str * str)) (timeout : N).

(** How a call of [requests.post] ends, after whatever it exchanged: with
    the final response, or with a [RequestException] and its message. *)
Inductive net_reply : Type :=
  | Replied (r : response)
  | Failed (message : str).

Definition network : Type := str -> str -> list (str * str) -> net_reply.

(** What [sys.stdout] can write: the code points its codec and error handler
    encode.  ([sys.stderr] writes every code point: its error handler is
    always [backslashreplace].) *)
Definition console : Type := N -> bool.

(** UTF-8 with the default handler [strict]: everything but lone
    surrogates. *)
Definition utf8_strict : console := scalar.

(** A stream whose handler replaces what it cannot encode. *)
Definition accept_all : console := fun _ => true.

Definition first_rejected (out : console) (s : str) : option N :=
  find (fun c => negb (out c)) s.

(** A program run: the events it caused, in order, and how it ended. *)
Definition prog (A : Type) : Type := list event * outcome A.

#[global] Instance prog_ret : MRet prog := fun A a => ([], Return a).

#[global] Instance prog_bind : MBind prog := fun A B k m =>
  match m.2 with
  | Return a => let r := k a in (m.1 ++ r.1, r.2)
  | Exit code => (m.1, Exit code)
  | Raise e => (m.1, Raise e)
  end.

Definition emit (e : event) : prog unit := ([e], Return tt).

(** [print(s)] writes [s], then a newline, to [sys.stdout].  A write
    encodes its whole text first and raises [UnicodeEncodeError] at the
    first code point the stream cannot encode, having written nothing of
    that text. *)
Definition print (out : console) (s : str) : prog unit :=
  match first_rejected out s with
  | Some c => ([], Raise (UnicodeEncodeError c))
  | None =>
      if out ch_newline then emit (Stdout (s ++ [ch_newline]))
      else ([Stdout s], Raise (UnicodeEncodeError ch_newline))
  end.

(** [print(s, file=sys.stderr)] writes [s] and a newline. *)
Definition print_err (s : str) : prog unit := emit (Stderr (s ++ [ch_newline])).

Definition sys_exit {A : Type} (code : N) : prog A := ([], Exit code).

Definition lift {A : Type} (o : outcome A) : prog A := ([], o).

(** ** [get_env_variable] *)

(** [not value] for the result of [os.environ.get]. *)
Definition falsy (value : option str) : bool :=
  match value with
  | None => true
  | Some [] => true
  | Some (_ :: _) => false
  end.

Definition not_set_message (name : str) : str :=
  lit "Error: " ++ name ++ lit " environment variable is not set".

Definition get_env_variable (environ : gmap str str) (name : str) : prog str :=
  let value := environ !! name in
  if falsy value then
    print_err (not_set_message name) ;; sys_exit 1
  else
    mret (strip (default [] value)).

(** ** [submit_application] *)

Definition submission_url : str := lit "https://b12.io/apply/submission".

(** [response.raise_for_status()]: the message of the [HTTPError] raised for
    a 4xx or 5xx status, if any. *)
Definition http_error_msg (r : response) : option str :=
  if (400 <=? status_code r) && (status_code r <? 500) then
    Some (str_of_N (status_code r) ++ lit " Client Error: " ++ reason r
          ++ lit " for url: " ++ url r)
  else if (500 <=? status_code r) && (status_code r <? 600) then
    Some (str_of_N (status_code r) ++ lit " Server Error: " ++ reason r
          ++ lit " for url: " ++ url r)
  else None.

(** [requests.post] is taken as a whole call: what it sends and receives,
    redirects included, is the answer of the network.  Before that, preparing
    the request encodes a text body as UTF-8 (as the library does over
    urllib3 2), so a body holding a lone surrogate makes the call raise
    [UnicodeEncodeError], which the handler of [RequestException] does not
    catch.  The signature is taken to be a text that can stand in a header
    (Latin-1 without line breaks), as the hexadecimal text [main] passes
    is. *)
Definition submit_application (net : network) (payload signature : str)
  : prog response :=
  let headers :=
    [ (lit "Content-Type", lit "application/json");
      (lit "X-Signature-256", lit "sha256=" ++ signature) ] in
  emit (PostCall submission_url payload headers 30) ;;
  match utf8_encode payload with
  | inl e => lift (Raise e)
  | inr _ =>
      match net submission_url payload headers with
      | Replied r =>
          match http_error_msg r with
          | None => mret r
          | Some e =>
              print_err (lit "Error submitting application: " ++ e) ;; sys_exit 1
          end
      | Failed e =>
          print_err (lit "Error submitting application: " ++ e) ;; sys_exit 1
      end
  end.

(** ** [main] *)

Definition nl : str := [ch_newline].

Definition main (out : console) (environ : gmap str str) (now : datetime)
                (net : network) : prog unit :=
  print out (lit "=== B12 Application Submission ===" ++ nl) ;;
  secret ← get_env_variable environ (lit "B12_SECRET") ;
  print out (lit "Secret length: " ++ str_of_N (N.of_nat (length secret))
         ++ lit " characters") ;;
  print out (lit "Secret starts with: " ++ take 4 secret ++ lit "...") ;;
  name ← get_env_variable environ (lit "B12_NAME") ;
  email ← get_env_variable environ (lit "B12_EMAIL") ;
  resume_link ← get_env_variable environ (lit "B12_RESUME_LINK") ;
  repository_link ← get_env_variable environ (lit "B12_REPOSITORY_LINK") ;
  action_run_link ← get_env_variable environ (lit "B12_ACTION_RUN_LINK") ;
  let timestamp := generate_timestamp now in
  print out (lit "Timestamp: " ++ timestamp) ;;
  let payload :=
    create_payload timestamp name email resume_link repository_link
                   action_run_link in
  print out (nl ++ lit "Canonical Payload:" ++ nl ++ payload ++ nl) ;;
  signature ← lift (compute_signature payload secret) ;
  print out (lit "HMAC-SHA256 Signature: " ++ signature ++ nl) ;;
  print out (lit "Submitting application to B12...") ;;
  response ← submit_application net payload signature ;
  print out (nl ++ lit "Response Status: " ++ str_of_N (status_code response)) ;;
  print out (lit "Response Headers: " ++ headers_repr response) ;;
  print out (nl ++ lit "Submission Receipt:" ++ nl ++ text response) ;;
  print out (nl ++ lit "=== Submission Complete ===").

(** ** Observers used in the statements *)

(** The characters JSON requires to be escaped inside a string: the double
    quote, the backslash and the control characters below U+0020. *)
Definition must_escape (c : N) : bool :=
  (c =? ch_quote) || (c =? ch_backslash) || (c <? 0x20).

(** A reader of compact JSON objects whose members are all strings.  It goes
    through the text once and collects the member names (as written between
    their quotes) in the order they appear. *)
Inductive scan_state : Type :=
  | AtStart
  | AtFirstKey
  | AtKey
  | InKey (escaped : bool) (acc : str)
  | AtColon
  | AtValue
  | InValue (escaped : bool)
  | AfterValue
  | AtEnd
  | Stuck.

Definition scan_step (st : scan_state * list str) (c : N) : scan_state * list str :=
  let keys := st.2 in
  match st.1 with
  | AtStart => if c =? 123 then (AtFirstKey, keys) else (Stuck, keys)
  | AtFirstKey =>
      if c =? ch_quote then (InKey false [], keys)
      else if c =? 125 then (AtEnd, keys) else (Stuck, keys)
  | AtKey => if c =? ch_quote then (InKey false [], keys) else (Stuck, keys)
  | InKey true acc => (InKey false (c :: acc), keys)
  | InKey false acc =>
      if c =? ch_backslash then (InKey true (c :: acc), keys)
      else if c =? ch_quote then (AtColon, rev acc :: keys)
      else (InKey false (c :: acc), keys)
  | AtColon => if c =? 58 then (AtValue, keys) else (Stuck, keys)
  | AtValue => if c =? ch_quote then (InValue false, keys) else (Stuck, keys)
  | InValue true => (InValue false, keys)
  | InValue false =>
      if c =? ch_backslash then (InValue true, keys)
      else if c =? ch_quote then (AfterValue, keys)
      else (InValue false, keys)
  | AfterValue =>
      if c =? 44 then (AtKey, keys)
      else if c =? 125 then (AtEnd, keys) else (Stuck, keys)
  | AtEnd => (Stuck, keys)
  | Stuck => (Stuck, keys)
  end.

Definition member_keys (s : str) : option (list str) :=
  let r := fold_left scan_step s (AtStart, []) in
  match r.1 with
  | AtEnd => Some (rev r.2)
  | _ => None
  end.

(** Member names that need no escaping. *)
Definition plain_keys (kvs : list (str * str)) : bool :=
  forallb (fun kv : str * str => forallb (fun c => negb (must_escape c)) kv.1) kvs.

(** The shape of [w] digits. *)
Fixpoint digits_shape (w : nat) : string :=
  match w with
  | O => EmptyString
  | S k => String "d" (digits_shape k)
  end.

(** The number a text of decimal digits denotes. *)
Definition dec_value (s : str) : N := fold_left (fun v c => 10 * v + (c - 48)) s 0.

(** The member names of the payload, in ascending order. *)
Definition payload_keys : list str :=
  [ lit "action_run_link"; lit "email"; lit "name";
    lit "repository_link"; lit "resume_link"; lit "timestamp" ].

(** [needle in hay] *)
Fixpoint contains (needle hay : str) : bool :=
  startswith needle hay
  || match hay with
     | [] => false
     | _ :: r => contains needle r
     end.

Definition is_lower_hex (c : N) : bool :=
  ((48 <=? c) && (c <=? 57)) || ((97 <=? c) && (c <=? 102)).

Definition is_post (e : event) : bool :=
  match e with
  | PostCall _ _ _ _ => true
  | _ => false
  end.

(** The bodies passed to [requests.post] in the calls of a run. *)
Definition posted_bodies (evs : list event) : list str :=
  flat_map (fun e => match e with
                     | PostCall _ data _ _ => [data]
                     | _ => []
                     end) evs.

(** A stream that can write ASCII, and one that can write every Unicode
    scalar value. *)
Definition writes_ascii (out : console) : Prop := forall c, c < 128 -> out c = true.
Definition writes_scalars (out : console) : Prop :=
  forall c, scalar c = true -> out c = true.

(** The run of [m] when the events [pre] came before it. *)
Definition run_from {A : Type} (pre : list event) (m : prog A) : prog A :=
  (pre ++ m.1, m.2).

(** The texts written to standard output and to standard error. *)
Definition stdout_texts (evs : list event) : list str :=
  flat_map (fun e => match e with Stdout t => [t] | _ => [] end) evs.

Definition stderr_texts (evs : list event) : list str :=
  flat_map (fun e => match e with Stderr t => [t] | _ => [] end) evs.

Definition is_ascii (c : N) : bool := c <? 128.

(** The variables [main] reads, in the order it reads them. *)
Definition required_vars : list str :=
  [ lit "B12_SECRET"; lit "B12_NAME"; lit "B12_EMAIL"; lit "B12_RESUME_LINK";
    lit "B12_REPOSITORY_LINK"; lit "B12_ACTION_RUN_LINK" ].

(** ** Readers used in the round trips *)

(** Where a reader of a JSON string stands with respect to escapes: outside
    one, just after a backslash, or inside [\uXXXX] with [k] digits to come
    and the value [v] read so far. *)
Inductive esc : Type :=
  | NoEsc
  | Backslash
  | Hex (k : nat) (v : N).

Inductive string_result : Type :=
  | Go (e : esc) (acc : str)
  | Close (acc : str)
  | Bad.

Definition hex_value (c : N) : option N :=
  if (48 <=? c) && (c <=? 57) then Some (c - 48)
  else if (97 <=? c) && (c <=? 102) then Some (c - 87)
  else if (65 <=? c) && (c <=? 70) then Some (c - 55)
  else None.

(** One character inside a string; [acc] holds the characters decoded so
    far, last first.  Each [\uXXXX] is read as the code point [XXXX]. *)
Definition string_step (e : esc) (acc : str) (c : N) : string_result :=
  match e with
  | NoEsc =>
      if c =? ch_backslash then Go Backslash acc
      else if c =? ch_quote then Close acc
      else if c <? 0x20 then Bad
      else Go NoEsc (c :: acc)
  | Backslash =>
      if c =? ch_quote then Go NoEsc (ch_quote :: acc)
      else if c =? ch_backslash then Go NoEsc (ch_backslash :: acc)
      else if c =? 47 then Go NoEsc (47 :: acc)
      else if c =? 110 then Go NoEsc (10 :: acc)
      else if c =? 114 then Go NoEsc (13 :: acc)
      else if c =? 116 then Go NoEsc (9 :: acc)
      else if c =? 102 then Go NoEsc (12 :: acc)
      else if c =? 98 then Go NoEsc (8 :: acc)
      else if c =? 117 then Go (Hex 4 0) acc
      else Bad
  | Hex k v =>
      match hex_value c with
      | None => Bad
      | Some h =>
          match k with
          | O => Bad
          | S O => Go NoEsc ((16 * v + h) :: acc)
          | S k' => Go (Hex k' (16 * v + h)) acc
          end
      end
  end.

(** The characters of a string read in a row, up to its end or to the first
    character that closes or breaks it. *)
Fixpoint string_run (e : esc) (acc : str) (l : str) : string_result :=
  match l with
  | [] => Go e acc
  | c :: r =>
      match string_step e acc c with
      | Go e' acc' => string_run e' acc' r
      | other => other
      end
  end.

(** A reader of compact JSON objects whose members are all strings: the
    members with names and values decoded, in the order of the text. *)
Inductive read_state : Type :=
  | RStart
  | RFirstKey
  | RKey
  | RInKey (e : esc) (acc : str)
  | RColon (key : str)
  | RValue (key : str)
  | RInValue (key : str) (e : esc) (acc : str)
  | RAfter
  | REnd
  | RStuck.

Definition read_step (st : read_state * list (str * str)) (c : N)
  : read_state * list (str * str) :=
  let items := st.2 in
  match st.1 with
  | RStart => if c =? 123 then (RFirstKey, items) else (RStuck, items)
  | RFirstKey =>
      if c =? ch_quote then (RInKey NoEsc [], items)
      else if c =? 125 then (REnd, items) else (RStuck, items)
  | RKey => if c =? ch_quote then (RInKey NoEsc [], items) else (RStuck, items)
  | RInKey e acc =>
      match string_step e acc c with
      | Go e' acc' => (RInKey e' acc', items)
      | Close a => (RColon (rev a), items)
      | Bad => (RStuck, items)
      end
  | RColon key => if c =? 58 then (RValue key, items) else (RStuck, items)
  | RValue key =>
      if c =? ch_quote then (RInValue key NoEsc [], items) else (RStuck, items)
  | RInValue key e acc =>
      match string_step e acc c with
      | Go e' acc' => (RInValue key e' acc', items)
      | Close a => (RAfter, (key, rev a) :: items)
      | Bad => (RStuck, items)
      end
  | RAfter =>
      if c =? 44 then (RKey, items)
      else if c =? 125 then (REnd, items) else (RStuck, items)
  | REnd => (RStuck, items)
  | RStuck => (RStuck, items)
  end.

Definition read_object (s : str) : option (list (str * str)) :=
  let r := fold_left read_step s (RStart, []) in
  match r.1 with
  | REnd => Some (rev r.2)
  | _ => None
  end.

(** The instant a timestamp of the shape [YYYY-MM-DDTHH:MM:SS.mmmZ] denotes,
    to the millisecond. *)
Definition read_timestamp (s : str) : option datetime :=
  match s with
  | [y1; y2; y3; y4; p1; m1; m2; p2; d1; d2; p3; h1; h2; p4; n1; n2; p5;
     s1; s2; p6; f1; f2; f3; p7] =>
      if forallb is_digit [y1; y2; y3; y4; m1; m2; d1; d2; h1; h2; n1; n2;
                           s1; s2; f1; f2; f3]
         && (p1 =? 45) && (p2 =? 45) && (p3 =? 84) && (p4 =? 58) && (p5 =? 58)
         && (p6 =? 46) && (p7 =? 90)
      then Some (Datetime (dec_value [y1; y2; y3; y4]) (dec_value [m1; m2])
                          (dec_value [d1; d2]) (dec_value [h1; h2])
                          (dec_value [n1; n2]) (dec_value [s1; s2])
                          (1000 * dec_value [f1; f2; f3]))
      else None
  | _ => None
  end.

(** The instant with what is below the millisecond dropped. *)
Definition to_millisecond (d : datetime) : datetime :=
  Datetime (year d) (month d) (day d) (hour d) (minute d) (second d)
           (1000 * (microsecond d / 1000)).

(** The first required variable, in reading order, that is unset or empty. *)
Definition first_missing (environ : gmap str str) : option str :=
  find (fun name => falsy (environ !! name)) required_vars.

(** A text that is not empty and neither begins nor ends with white space. *)
Definition trimmed (v : str) : bool :=
  match head v, last v with
  | Some a, Some b => negb (is_space a) && negb (is_space b)
  | _, _ => false
  end.

(** The first code point of a text that has no UTF-8 encoding. *)
Definition first_unencodable (s : str) : option N :=
  find (fun c => negb (scalar c)) s.

(** ** Sample inputs *)

Definition sample_environ : gmap str str :=
  <[lit "B12_SECRET" := lit "s3cr3t"]>
  (<[lit "B12_NAME" := lit "Ada Lovelace"]>
  (<[lit "B12_EMAIL" := lit "ada@example.com"]>
  (<[lit "B12_RESUME_LINK" := lit "https://x/r.pdf"]>
  (<[lit "B12_REPOSITORY_LINK" := lit "https://x/repo"]>
  (<[lit "B12_ACTION_RUN_LINK" := lit "https://x/run/1"]> ∅))))).

Definition sample_now : datetime := Datetime 2024 1 1 0 0 0 0.

Definition sample_network : network :=
  fun _ _ _ => Replied (Response 200 (lit "OK") submission_url (lit "{}") (lit "ok")).

Definition sample_payload : str :=
  jlit "{'action_run_link':'https://x/run/1','email':'ada@example.com','name':'Ada Lovelace','repository_link':'https://x/repo','resume_link':'https://x/r.pdf','timestamp':'2024-01-01T00:00:00.000Z'}".

(** * Properties *)

(** ** Known answers *)

Example sha256_abc :
  hex_of_bytes (Sha256.digest (lit "abc"))
  = lit "ba7816bf8f01cfea414140de5dae2223b00361a396177a9cb410ff61f20015ad".
Proof. vm_compute. reflexivity. Qed.

Example sha256_empty :
  hex_of_bytes (Sha256.digest [])
  = lit "e3b0c44298fc1c149afbf4c8996fb92427ae41e4649b934ca495991b7852b855".
Proof. vm_compute. reflexivity. Qed.

Example sha256_two_blocks :
  hex_of_bytes (Sha256.digest
    (lit "abcdbcdecdefdefgefghfghighijhijkijkljklmklmnlmnomnopnopq"))
  = lit "248d6a61d20638b8e5c026930c3e6039a33ce45964ff2167f6ecedd419db06c1".
Proof. vm_compute. reflexivity. Qed.

Example hmac_rfc4231_case1 :
  Hmac.hexdigest (Hmac.new (repeat 0x0B 20) (lit "Hi There"))
  = lit "b0344c61d8db38535ca8afceaf0bf12b881dc200c9833da726e9376c2e32cff7".
Proof. vm_compute. reflexivity. Qed.

Example hmac_rfc4231_case2 :
  compute_signature (lit "what do ya want for nothing?") (lit "Jefe")
  = Return (lit "5bdcc146bf60754e6a042426089575c75a003f089d2739839dec58b964ec3843").
Proof. vm_compute. reflexivity. Qed.

Example hmac_rfc4231_case6 :
  Hmac.hexdigest (Hmac.new (repeat 0xAA 131)
    (lit "Test Using Larger Than Block-Size Key - Hash Key First"))
  = lit "60e431591ee0b67f0d8a26aacbf5b77f8e0bc6213728c5140546040f0ee37f54".
Proof. vm_compute. reflexivity. Qed.

Example utf8_examples :
  utf8_encode [0xE9; 0x20AC; 0x1F600] = inr [0xC3; 0xA9; 0xE2; 0x82; 0xAC; 0xF0; 0x9F; 0x98; 0x80]
  /\ utf8_encode [0x61; 0xDC80] = inl (UnicodeEncodeError 0xDC80).
Proof. vm_compute. split; reflexivity. Qed.

Example generate_timestamp_example :
  generate_timestamp (Datetime 2024 1 1 0 0 0 0) = lit "2024-01-01T00:00:00.000Z"
  /\ generate_timestamp (Datetime 987 12 31 23 59 59 999999)
     = lit "0987-12-31T23:59:59.999Z".
Proof. vm_compute. split; reflexivity. Qed.


Example jlit_reads_quotes : jlit "{'a':'b'}" = [123; 34; 97; 34; 58; 34; 98; 34; 125].
Proof. reflexivity. Qed.

Example member_keys_sample : member_keys sample_payload = Some payload_keys.
Proof. vm_compute. reflexivity. Qed.

Example main_sample :
  (main utf8_strict sample_environ sample_now sample_network).2 = Return tt
  /\ nth 7 (main utf8_strict sample_environ sample_now sample_network).1 (Stdout [])
     = PostCall submission_url sample_payload
         [ (lit "Content-Type", lit "application/json");
           (lit "X-Signature-256",
            lit "sha256=0523e00097b06b20fd21d5f96c9d1d4d59d41476a9f718e81d8e76e5ee25f207") ]
         30.
Proof. vm_compute. split; reflexivity. Qed.

(** ** The model of the library functions *)

(** The digits [dec_digits] writes denote the number it was given: the fuel
    of [str_of_N] is enough. *)
Lemma dec_digits_value (fuel : nat) (n : N) (acc : str) :
  n < 2 ^ N.of_nat fuel ->
  exists ds, dec_digits fuel n acc = ds ++ acc /\ dec_value ds = n.
Proof.
  revert n acc. induction fuel as [| f IH]; intros n acc Hn.
  - exists []. split; [reflexivity |]. cbn in Hn |- *. lia.
  - cbn [dec_digits]. destruct (N.eqb_spec (n / 10) 0) as [E | E].
    + exists [48 + n mod 10]. split; [reflexivity |].
      unfold dec_value. cbn [fold_left].
      pose proof (N.div_mod n 10 ltac:(discriminate)) as Hdm.
      rewrite E in Hdm. rewrite (N.add_comm 48), N.add_sub.
      rewrite Hdm at 2. reflexivity.
    + assert (Hq : n / 10 < 2 ^ N.of_nat f).
      { rewrite Nat2N.inj_succ, N.pow_succ_r' in Hn.
        apply N.Div0.div_lt_upper_bound. lia. }
      destruct (IH (n / 10) ((48 + n mod 10) :: acc) Hq) as (ds & Hds & Hv).
      exists (ds ++ [48 + n mod 10]). split.
      * rewrite Hds, <- app_assoc. reflexivity.
      * unfold dec_value in Hv |- *. rewrite fold_left_app, Hv. cbn [fold_left].
        pose proof (N.div_mod n 10 ltac:(discriminate)) as Hdm.
        rewrite (N.add_comm 48), N.add_sub. symmetry. exact Hdm.
Qed.

Lemma str_of_N_value (n : N) : dec_value (str_of_N n) = n.
Proof.
  unfold str_of_N.
  assert (Hn : n < 2 ^ N.of_nat (S (N.to_nat (N.log2 n)))).
  { rewrite Nat2N.inj_succ, N2Nat.id.
    destruct n as [| p]; [reflexivity |]. apply N.log2_spec. reflexivity. }
  destruct (dec_digits_value _ n [] Hn) as (ds & Hds & Hv).
  rewrite Hds, app_nil_r. exact Hv.
Qed.

(** More fuel than blocks changes nothing: [Sha256.digest] absorbs the
    whole padded message. *)
Lemma absorb_fuel (f1 f2 : nat) (s : Sha256.state) (bs : bytes) :
  (length bs <= f1)%nat -> (length bs <= f2)%nat ->
  Sha256.absorb f1 s bs = Sha256.absorb f2 s bs.
Proof.
  revert f2 s bs. induction f1 as [| f1 IH]; intros f2 s bs H1 H2.
  - destruct bs; [| cbn in H1; lia]. destruct f2; reflexivity.
  - destruct bs as [| b bs]; [destruct f2; reflexivity |].
    destruct f2 as [| f2]; [cbn in H2; lia |].
    cbn [Sha256.absorb]. apply IH; rewrite length_drop; cbn [length] in *; lia.
Qed.

Lemma lor_below (a b n : N) : a < 2 ^ n -> b < 2 ^ n -> N.lor a b < 2 ^ n.
Proof.
  intros Ha Hb. destruct (N.eq_dec (N.lor a b) 0) as [E | E].
  - rewrite E. apply N.neq_0_lt_0, N.pow_nonzero. discriminate.
  - apply N.log2_lt_pow2; [lia |]. rewrite N.log2_lor.
    assert (Hn : n <> 0).
    { intros ->. cbn in Ha, Hb. apply E.
      replace a with 0 by lia. replace b with 0 by lia. reflexivity. }
    apply N.max_lub_lt.
    + destruct (N.eq_dec a 0) as [-> | Ea]; [cbn; lia | apply N.log2_lt_pow2; lia].
    + destruct (N.eq_dec b 0) as [-> | Eb]; [cbn; lia | apply N.log2_lt_pow2; lia].
Qed.

Lemma continuation_octet (x : N) : N.lor 0x80 (N.land x 0x3F) < 256.
Proof.
  apply (lor_below _ _ 8); [reflexivity |].
  change 0x3F with (N.ones 6). rewrite N.land_ones.
  pose proof (N.mod_upper_bound x (2 ^ 6) ltac:(discriminate)) as H.
  change (2 ^ 6) with 64 in *. change (2 ^ 8) with 256. lia.
Qed.

(** The UTF-8 encoding of a code point is made of octets. *)
Lemma utf8_char_octets (c : N) (bs : bytes) :
  utf8_char c = inr bs -> forallb (fun b => b <? 256) bs = true.
Proof.
  unfold utf8_char.
  destruct (N.ltb_spec c 128).
  { intros H0. inversion H0. cbn [forallb]. rewrite andb_true_r. apply N.ltb_lt. lia. }
  destruct (N.ltb_spec c 2048).
  { intros H1. inversion H1. cbn [forallb]. rewrite andb_true_r.
    apply andb_true_intro. split; apply N.ltb_lt; [| apply continuation_octet].
    apply (lor_below _ _ 8); [reflexivity |].
    rewrite N.shiftr_div_pow2. change (2 ^ 6) with 64. change (2 ^ 8) with 256.
    assert (c / 64 < 32) by (apply N.Div0.div_lt_upper_bound; lia). lia. }
  destruct (N.ltb_spec c 65536).
  { destruct ((55296 <=? c) && (c <=? 57343)); [discriminate |].
    intros H2. inversion H2. cbn [forallb]. rewrite andb_true_r.
    repeat (apply andb_true_intro; split); apply N.ltb_lt;
      try apply continuation_octet.
    apply (lor_below _ _ 8); [reflexivity |].
    rewrite N.shiftr_div_pow2. change (2 ^ 12) with 4096. change (2 ^ 8) with 256.
    assert (c / 4096 < 16) by (apply N.Div0.div_lt_upper_bound; lia). lia. }
  destruct (N.ltb_spec c 1114112); [| discriminate].
  intros H3. inversion H3. cbn [forallb]. rewrite andb_true_r.
  repeat (apply andb_true_intro; split); apply N.ltb_lt;
    try apply continuation_octet.
  apply (lor_below _ _ 8); [reflexivity |].
  rewrite N.shiftr_div_pow2. change (2 ^ 18) with 262144. change (2 ^ 8) with 256.
  assert (c / 262144 < 5) by (apply N.Div0.div_lt_upper_bound; lia). lia.
Qed.

Lemma utf8_encode_octets (s : str) (bs : bytes) :
  utf8_encode s = inr bs -> forallb (fun b => b <? 256) bs = true.
Proof.
  revert bs. induction s as [| c s IH]; intros bs; cbn [utf8_encode].
  - intros H. inversion H. reflexivity.
  - destruct (utf8_char c) as [e | cb] eqn:Ec; [discriminate |].
    destruct (utf8_encode s) as [e | rest]; [discriminate |].
    intros H. inversion H. rewrite forallb_app, (utf8_char_octets c cb Ec), (IH rest eq_refl).
    reflexivity.
Qed.

(** ** The canonical payload *)

(** C1: for the inputs of the end-to-end example, [create_payload] returns
    exactly the canonical text of the specification, with nothing after the
    closing brace; its UTF-8 encoding is the same sequence of octets. *)
Theorem create_payload_ada :
  create_payload (lit "2024-01-01T00:00:00.000Z") (lit "Ada Lovelace")
    (lit "ada@example.com") (lit "https://x/r.pdf") (lit "https://x/repo")
    (lit "https://x/run/1")
  = jlit "{'action_run_link':'https://x/run/1','email':'ada@example.com','name':'Ada Lovelace','repository_link':'https://x/repo','resume_link':'https://x/r.pdf','timestamp':'2024-01-01T00:00:00.000Z'}"
  /\ utf8_encode (create_payload (lit "2024-01-01T00:00:00.000Z") (lit "Ada Lovelace")
       (lit "ada@example.com") (lit "https://x/r.pdf") (lit "https://x/repo")
       (lit "https://x/run/1"))
     = inr (jlit "{'action_run_link':'https://x/run/1','email':'ada@example.com','name':'Ada Lovelace','repository_link':'https://x/repo','resume_link':'https://x/r.pdf','timestamp':'2024-01-01T00:00:00.000Z'}").
Proof. vm_compute. split; reflexivity. Qed.

(** The items of the payload dictionary, once sorted. *)
Lemma sorted_payload_items (timestamp name email resume_link repository_link
                            action_run_link : str) :
  Json.sorted_items
    (payload_dict timestamp name email resume_link repository_link action_run_link)
  = [ (lit "action_run_link", action_run_link);
      (lit "email", email);
      (lit "name", name);
      (lit "repository_link", repository_link);
      (lit "resume_link", resume_link);
      (lit "timestamp", timestamp) ].
Proof. vm_compute. reflexivity. Qed.

(** The text [create_payload] builds, member by member. *)
Lemma create_payload_layout (timestamp name email resume_link repository_link
                             action_run_link : str) :
  create_payload timestamp name email resume_link repository_link action_run_link
  = lit "{"
    ++ Json.encode_basestring (lit "action_run_link") ++ lit ":"
    ++ Json.encode_basestring action_run_link ++ lit ","
    ++ Json.encode_basestring (lit "email") ++ lit ":"
    ++ Json.encode_basestring email ++ lit ","
    ++ Json.encode_basestring (lit "name") ++ lit ":"
    ++ Json.encode_basestring name ++ lit ","
    ++ Json.encode_basestring (lit "repository_link") ++ lit ":"
    ++ Json.encode_basestring repository_link ++ lit ","
    ++ Json.encode_basestring (lit "resume_link") ++ lit ":"
    ++ Json.encode_basestring resume_link ++ lit ","
    ++ Json.encode_basestring (lit "timestamp") ++ lit ":"
    ++ Json.encode_basestring timestamp
    ++ lit "}".
Proof.
  unfold create_payload, Json.dumps.
  change (payload_dict _ _ _ _ _ _) with
    (payload_dict timestamp name email resume_link repository_link action_run_link).
  rewrite sorted_payload_items.
  unfold payload_dict, Json.join, Json.member.
  cbn [map flat_map fst snd].
  rewrite <- ?app_assoc. reflexivity.
Qed.

(** *** Escaping *)

Lemma hex_digit_plain (d : N) :
  (hex_digit d =? ch_quote) = false /\ (hex_digit d =? ch_backslash) = false.
Proof.
  unfold hex_digit, ch_quote, ch_backslash.
  destruct (N.ltb_spec d 10); split; apply N.eqb_neq; lia.
Qed.

(** A character that need not be escaped is written as it is. *)
Lemma escape_char_plain (c : N) :
  must_escape c = false -> Json.escape_char c = [c].
Proof.
  unfold must_escape, Json.escape_char, ch_quote, ch_backslash.
  intros H. apply orb_false_elim in H as [H Hctl].
  apply orb_false_elim in H as [Hq Hb]. rewrite Hq, Hb.
  apply N.ltb_ge in Hctl.
  repeat match goal with
         | |- context [?x =? ?y] =>
             destruct (N.eqb_spec x y); [lia |]
         end.
  destruct (N.ltb_spec c 32); [lia | reflexivity].
Qed.

(** A character that must be escaped is written as a backslash followed by
    at least one more character, none of which ends the string. *)
Lemma escape_char_escaped (c : N) :
  must_escape c = true ->
  exists x rest,
    Json.escape_char c = ch_backslash :: x :: rest
    /\ Forall (fun h => (h =? ch_quote) = false /\ (h =? ch_backslash) = false) rest.
Proof.
  intros H. unfold Json.escape_char.
  destruct (c =? ch_quote) eqn:Hq;
    [eexists _, _; split; [reflexivity | constructor] |].
  destruct (c =? ch_backslash) eqn:Hb;
    [eexists _, _; split; [reflexivity | constructor] |].
  repeat match goal with
         | |- context [if ?x =? ?y then _ else _] =>
             destruct (x =? y); [eexists _, _; split; [reflexivity | constructor] |]
         end.
  destruct (c <? 32) eqn:Hc.
  - eexists _, _. split; [reflexivity |].
    unfold fmt_04x. repeat constructor; apply hex_digit_plain.
  - unfold must_escape in H. rewrite Hq, Hb, Hc in H. discriminate.
Qed.

(** Reading an escaped character inside a value leaves the reader inside
    the value. *)
Lemma scan_escape_char_value (c : N) (keys : list str) :
  fold_left scan_step (Json.escape_char c) (InValue false, keys)
  = (InValue false, keys).
Proof.
  destruct (must_escape c) eqn:E.
  - destruct (escape_char_escaped c E) as (x & rest & -> & Hrest).
    cbn. clear E. induction Hrest as [| h rest [Hq Hb] _ IH]; [reflexivity |].
    cbn. rewrite Hq, Hb. exact IH.
  - rewrite (escape_char_plain c E). cbn.
    unfold must_escape in E.
    apply orb_false_elim in E as [E _]. apply orb_false_elim in E as [Hq Hb].
    rewrite Hq, Hb. reflexivity.
Qed.

Lemma scan_value (v rest : str) (keys : list str) :
  fold_left scan_step (flat_map Json.escape_char v ++ ch_quote :: rest)
            (InValue false, keys)
  = fold_left scan_step rest (AfterValue, keys).
Proof.
  induction v as [| c v IH]; [reflexivity |].
  cbn [flat_map]. rewrite <- app_assoc, fold_left_app, scan_escape_char_value.
  exact IH.
Qed.

(** One member whose name is a plain literal: the reader records the name
    and skips the value, whatever the value is. *)
Lemma scan_member (k v rest : str) (keys : list str) :
  forallb (fun c => negb (must_escape c)) k = true ->
  fold_left scan_step
    (Json.encode_basestring k ++ lit ":" ++ Json.encode_basestring v ++ rest)
    (AtKey, keys)
  = fold_left scan_step rest (AfterValue, k :: keys)
  /\ fold_left scan_step
    (Json.encode_basestring k ++ lit ":" ++ Json.encode_basestring v ++ rest)
    (AtFirstKey, keys)
  = fold_left scan_step rest (AfterValue, k :: keys).
Proof.
  intros Hk.
  assert (Hin : forall acc tl,
    fold_left scan_step (flat_map Json.escape_char k ++ ch_quote :: tl)
              (InKey false acc, keys)
    = fold_left scan_step tl (AtColon, rev (rev k ++ acc) :: keys)).
  { induction k as [| c k IH]; intros acc tl; [reflexivity |].
    cbn [forallb] in Hk. apply andb_prop in Hk as [Hc Hk].
    apply negb_true_iff in Hc.
    cbn [flat_map]. rewrite (escape_char_plain c Hc). cbn [app fold_left].
    unfold must_escape in Hc.
    apply orb_false_elim in Hc as [Hc _]. apply orb_false_elim in Hc as [Hq Hb].
    unfold scan_step at 2. cbn [fst snd]. rewrite Hq, Hb.
    rewrite (IH Hk). cbn [rev]. rewrite <- app_assoc. reflexivity. }
  assert (Hval : forall tl,
    fold_left scan_step (lit ":" ++ Json.encode_basestring v ++ tl)
              (AtColon, k :: keys)
    = fold_left scan_step tl (AfterValue, k :: keys)).
  { intros tl. unfold Json.encode_basestring. cbn [lit app fold_left].
    cbn. rewrite <- app_assoc. apply scan_value. }
  unfold Json.encode_basestring at 1 3.
  split; cbn [app fold_left]; unfold scan_step at 2; cbn [fst snd N.eqb];
    cbn; rewrite <- app_assoc; cbn [app]; rewrite Hin, app_nil_r, rev_involutive;
    apply Hval.
Qed.

(** C8: in the text [create_payload] returns, every value stands between
    double quotes as the concatenation of its characters' images under
    [Json.escape_char]; a character at or above U+0080 is its own image (no
    [\uXXXX] form), and so is every character other than the double quote,
    the backslash and the control characters below U+0020, which alone are
    written with a leading backslash. *)
Theorem create_payload_escapes_only_required
    (timestamp name email resume_link repository_link action_run_link : str) :
  let quoted v := ch_quote :: flat_map Json.escape_char v ++ [ch_quote] in
  create_payload timestamp name email resume_link repository_link action_run_link
  = lit "{"
    ++ quoted (lit "action_run_link") ++ lit ":" ++ quoted action_run_link ++ lit ","
    ++ quoted (lit "email") ++ lit ":" ++ quoted email ++ lit ","
    ++ quoted (lit "name") ++ lit ":" ++ quoted name ++ lit ","
    ++ quoted (lit "repository_link") ++ lit ":" ++ quoted repository_link ++ lit ","
    ++ quoted (lit "resume_link") ++ lit ":" ++ quoted resume_link ++ lit ","
    ++ quoted (lit "timestamp") ++ lit ":" ++ quoted timestamp
    ++ lit "}"
  /\ (forall c, 0x80 <= c -> Json.escape_char c = [c])
  /\ (forall c, must_escape c = false -> Json.escape_char c = [c])
  /\ (forall c, must_escape c = true ->
        exists e, Json.escape_char c = ch_backslash :: e /\ e <> [])
  /\ (forall c, must_escape c = true <-> c = ch_quote \/ c = ch_backslash \/ c < 0x20).
Proof.
  cbv zeta. split; [apply create_payload_layout |].
  split; [| split; [exact escape_char_plain | split]].
  - intros c Hc. apply escape_char_plain. unfold must_escape, ch_quote, ch_backslash.
    rewrite !orb_false_iff. repeat split.
    + apply N.eqb_neq. lia.
    + apply N.eqb_neq. lia.
    + apply N.ltb_ge. lia.
  - intros c Hc. destruct (escape_char_escaped c Hc) as (x & rest & -> & _).
    exists (x :: rest). split; [reflexivity | discriminate].
  - intros c. unfold must_escape. rewrite !orb_true_iff, !N.eqb_eq, N.ltb_lt.
    tauto.
Qed.

Example create_payload_non_ascii :
  create_payload (lit "t") [0x4A; 0x6F; 0x73; 0xE9] [0x20AC; 34; 0x1F600; 92] [9; 0x7F]
                 [1; 0x85] (lit "/")
  = jlit "{'action_run_link':'/','email':'" ++ [0x20AC; 92; 34; 0x1F600; 92; 92]
    ++ jlit "','name':'Jos" ++ [0xE9]
    ++ jlit "','repository_link':'\u0001" ++ [0x85]
    ++ jlit "','resume_link':'\t" ++ [0x7F]
    ++ jlit "','timestamp':'t'}".
Proof. vm_compute. reflexivity. Qed.

(** *** Key order *)

Lemma str_compare_refl (a : str) : Json.str_compare a a = Eq.
Proof. induction a as [| x a IH]; [reflexivity |]. cbn. rewrite N.compare_refl. exact IH. Qed.

Lemma str_compare_eq (a b : str) : Json.str_compare a b = Eq -> a = b.
Proof.
  revert b. induction a as [| x a IH]; intros [| y b]; cbn; try discriminate; [reflexivity |].
  destruct (x ?= y) eqn:E; try discriminate.
  apply N.compare_eq in E. intros H. f_equal; [exact E | exact (IH _ H)].
Qed.

Lemma str_compare_opp (a b : str) :
  Json.str_compare b a = CompOpp (Json.str_compare a b).
Proof.
  revert b. induction a as [| x a IH]; intros [| y b]; cbn; try reflexivity.
  rewrite (N.compare_antisym x y). destruct (x ?= y); cbn; [apply IH | reflexivity | reflexivity].
Qed.

Lemma str_compare_lt_trans (a b c : str) :
  Json.str_compare a b = Lt -> Json.str_compare b c = Lt -> Json.str_compare a c = Lt.
Proof.
  revert b c. induction a as [| x a IH]; intros [| y b] [| z c]; cbn; try discriminate;
    try reflexivity.
  destruct (x ?= y) eqn:E1; destruct (y ?= z) eqn:E2; try discriminate.
  - apply N.compare_eq in E1, E2. subst. rewrite N.compare_refl. apply IH.
  - apply N.compare_eq in E1. subst. rewrite E2. reflexivity.
  - apply N.compare_eq in E2. subst. rewrite E1. reflexivity.
  - rewrite N.compare_lt_iff in E1, E2.
    assert (E : (x ?= z) = Lt) by (apply N.compare_lt_iff; lia). rewrite E. reflexivity.
Qed.

Lemma item_compare_eq (x y : str * str) : Json.item_compare x y = Eq -> x = y.
Proof.
  destruct x as [k1 v1], y as [k2 v2]. unfold Json.item_compare. cbn.
  destruct (Json.str_compare k1 k2) eqn:E; try discriminate.
  intros H. apply str_compare_eq in E, H. congruence.
Qed.

Lemma item_compare_opp (x y : str * str) :
  Json.item_compare y x = CompOpp (Json.item_compare x y).
Proof.
  unfold Json.item_compare. rewrite (str_compare_opp x.1 y.1).
  destruct (Json.str_compare x.1 y.1); cbn; [apply str_compare_opp | reflexivity | reflexivity].
Qed.

Lemma item_compare_lt_trans (x y z : str * str) :
  Json.item_compare x y = Lt -> Json.item_compare y z = Lt -> Json.item_compare x z = Lt.
Proof.
  unfold Json.item_compare.
  destruct (Json.str_compare x.1 y.1) eqn:E1; try discriminate;
    destruct (Json.str_compare y.1 z.1) eqn:E2; try discriminate; intros H1 H2.
  - apply str_compare_eq in E1 as E1'. rewrite E1', E2. eauto using str_compare_lt_trans.
  - apply str_compare_eq in E1 as E1'. rewrite E1', E2. reflexivity.
  - apply str_compare_eq in E2 as E2'. rewrite <- E2', E1. reflexivity.
  - rewrite (str_compare_lt_trans _ _ _ E1 E2). reflexivity.
Qed.

#[local] Instance item_le_total : Total Json.item_le.
Proof.
  intros x y. unfold Json.item_le. rewrite (item_compare_opp x y).
  destruct (Json.item_compare x y); cbn; [left | left | right]; discriminate.
Qed.

#[local] Instance item_le_trans : Transitive Json.item_le.
Proof.
  intros x y z. unfold Json.item_le.
  destruct (Json.item_compare x y) eqn:E1; [| | congruence];
    destruct (Json.item_compare y z) eqn:E2; try congruence; intros _ _.
  - apply item_compare_eq in E1. subst. rewrite E2. discriminate.
  - apply item_compare_eq in E1. subst. rewrite E2. discriminate.
  - apply item_compare_eq in E2. subst. rewrite E1. discriminate.
  - rewrite (item_compare_lt_trans _ _ _ E1 E2). discriminate.
Qed.

#[local] Instance item_le_antisym : AntiSymm (=) Json.item_le.
Proof.
  intros x y. unfold Json.item_le. rewrite (item_compare_opp x y).
  destruct (Json.item_compare x y) eqn:E; cbn; try congruence.
  intros _ _. exact (item_compare_eq _ _ E).
Qed.

(** Sorting forgets the order the items were inserted in. *)
Lemma sorted_items_perm (d d' : list (str * str)) :
  d ≡ₚ d' -> Json.sorted_items d = Json.sorted_items d'.
Proof.
  intros Hp. unfold Json.sorted_items.
  apply (Sorted_unique Json.item_le).
  - apply Sorted_merge_sort; apply _.
  - apply Sorted_merge_sort; apply _.
  - rewrite !merge_sort_Permutation. exact Hp.
Qed.

Lemma dumps_perm (item_sep key_sep : str) (d d' : list (str * str)) :
  d ≡ₚ d' -> Json.dumps item_sep key_sep d = Json.dumps item_sep key_sep d'.
Proof.
  intros Hp. unfold Json.dumps. rewrite (sorted_items_perm d d' Hp).
  destruct d as [| x d], d' as [| y d']; try reflexivity.
  apply Permutation_nil_cons in Hp. contradiction.
Qed.

Lemma scan_more_members (kvs : list (str * str)) (rest : str) (keys : list str) :
  plain_keys kvs = true ->
  fold_left scan_step
    (flat_map (fun q => lit "," ++ q) (map (Json.member (lit ":")) kvs) ++ rest)
    (AfterValue, keys)
  = fold_left scan_step rest (AfterValue, rev (map fst kvs) ++ keys).
Proof.
  revert keys. induction kvs as [| [k v] kvs IH]; intros keys H; [reflexivity |].
  cbn [plain_keys forallb fst] in H. apply andb_prop in H as [Hk H].
  cbn [map flat_map]. unfold Json.member at 1. cbn [fst snd].
  change (lit ",") with [44]. rewrite <- !app_assoc. cbn [app fold_left].
  change (scan_step (AfterValue, keys) 44) with (AtKey, keys).
  rewrite (proj1 (scan_member k v _ keys Hk)).
  rewrite (IH _ H). cbn [map rev fst]. rewrite <- app_assoc. reflexivity.
Qed.

Lemma scan_dumps (d : list (str * str)) :
  plain_keys (Json.sorted_items d) = true ->
  fold_left scan_step (Json.dumps (lit ",") (lit ":") d) (AtStart, [])
  = (AtEnd, rev (map fst (Json.sorted_items d))).
Proof.
  intros H. unfold Json.dumps. destruct d as [| x d]; [reflexivity |].
  remember (Json.sorted_items (x :: d)) as items eqn:E. clear E.
  destruct items as [| [k v] kvs]; [reflexivity |].
  cbn [plain_keys forallb fst] in H. apply andb_prop in H as [Hk H].
  unfold Json.join. cbn [map]. unfold Json.member at 1. cbn [fst snd].
  change (lit "{") with [123]. rewrite <- !app_assoc. cbn [app fold_left].
  change (scan_step (AtStart, []) 123) with (AtFirstKey, @nil (list N)).
  rewrite (proj2 (scan_member k v _ [] Hk)).
  rewrite (scan_more_members kvs _ _ H).
  reflexivity.
Qed.

(** The reader finds, in the text [Json.dumps] writes for a dictionary with
    plain member names, the names of the sorted items, in that order. *)
Lemma member_keys_dumps (d : list (str * str)) :
  plain_keys (Json.sorted_items d) = true ->
  member_keys (Json.dumps (lit ",") (lit ":") d) = Some (map fst (Json.sorted_items d)).
Proof.
  intros H. unfold member_keys. rewrite (scan_dumps d H). cbn [fst snd].
  rewrite rev_involutive. reflexivity.
Qed.

(** C2: whatever the order in which the six fields are inserted into the
    dictionary, the text is the one [create_payload] returns, and the member
    names read back from it are [action_run_link], [email], [name],
    [repository_link], [resume_link], [timestamp], in this order, which is
    strictly ascending for the code-point (here byte-wise) order. *)
Theorem create_payload_key_order
    (timestamp name email resume_link repository_link action_run_link : str)
    (d : list (str * str)) :
  d ≡ₚ payload_dict timestamp name email resume_link repository_link action_run_link ->
  Json.dumps (lit ",") (lit ":") d
  = create_payload timestamp name email resume_link repository_link action_run_link
  /\ member_keys (Json.dumps (lit ",") (lit ":") d) = Some payload_keys
  /\ StronglySorted (fun a b => Json.str_compare a b = Lt) payload_keys.
Proof.
  intros Hp. split; [exact (dumps_perm _ _ _ _ Hp) |]. split.
  - rewrite (dumps_perm _ _ _ _ Hp), member_keys_dumps;
      rewrite sorted_payload_items; reflexivity.
  - unfold payload_keys. repeat constructor.
Qed.

Lemma create_payload_key_order_witness :
  let d := [ (lit "name", lit "Ada"); (lit "action_run_link", lit "r");
             (lit "timestamp", lit "t"); (lit "email", lit "e");
             (lit "resume_link", [34; 44; 34]); (lit "repository_link", lit "p") ] in
  d ≡ₚ payload_dict (lit "t") (lit "Ada") (lit "e") [34; 44; 34] (lit "p") (lit "r")
  /\ member_keys (Json.dumps (lit ",") (lit ":") d) = Some payload_keys.
Proof.
  cbv zeta.
  assert (Hp : [ (lit "name", lit "Ada"); (lit "action_run_link", lit "r");
                 (lit "timestamp", lit "t"); (lit "email", lit "e");
                 (lit "resume_link", [34; 44; 34]); (lit "repository_link", lit "p") ]
               ≡ₚ payload_dict (lit "t") (lit "Ada") (lit "e") [34; 44; 34] (lit "p") (lit "r")).
  { unfold payload_dict. solve_Permutation. }
  split; [exact Hp |].
  exact (proj1 (proj2 (create_payload_key_order _ _ _ _ _ _ _ Hp))).
Defined.

(** ** The timestamp *)

Lemma is_digit_low (d : N) : d < 10 -> is_digit (48 + d) = true.
Proof.
  intros H. unfold is_digit. apply andb_true_intro.
  split; apply N.leb_le; lia.
Qed.

Lemma dec_digits_digits (fuel : nat) (n : N) (acc : str) :
  forallb is_digit acc = true -> forallb is_digit (dec_digits fuel n acc) = true.
Proof.
  revert n acc. induction fuel as [| f IH]; intros n acc Hacc; [exact Hacc |].
  cbn [dec_digits].
  assert (Hd : forallb is_digit ((48 + n mod 10) :: acc) = true).
  { cbn [forallb]. rewrite Hacc, is_digit_low; [reflexivity |].
    apply N.mod_upper_bound. lia. }
  destruct (n / 10 =? 0); [exact Hd | exact (IH _ _ Hd)].
Qed.

Lemma dec_digits_length (fuel : nat) (n : N) (acc : str) (k : nat) :
  n < 10 ^ N.of_nat k -> (1 <= k)%nat ->
  (length (dec_digits fuel n acc) <= length acc + k)%nat.
Proof.
  revert n acc k. induction fuel as [| f IH]; intros n acc k Hn Hk; [cbn; lia |].
  cbn [dec_digits]. destruct (N.eqb_spec (n / 10) 0) as [E | E]; [cbn; lia |].
  destruct k as [| [| k]]; [lia | |].
  - exfalso. apply E. apply N.div_small. exact Hn.
  - specialize (IH (n / 10) ((48 + n mod 10) :: acc) (S k)).
    cbn [length] in IH |- *.
    assert (n / 10 < 10 ^ N.of_nat (S k)).
    { apply N.Div0.div_lt_upper_bound.
      rewrite <- N.pow_succ_r', <- Nat2N.inj_succ. exact Hn. }
    lia.
Qed.

Lemma fmt_0d_digits (w : nat) (n : N) : forallb is_digit (fmt_0d w n) = true.
Proof.
  unfold fmt_0d, str_of_N. rewrite forallb_app. apply andb_true_intro. split.
  - induction (w - _)%nat as [| j IH]; [reflexivity | exact IH].
  - apply dec_digits_digits. reflexivity.
Qed.

Lemma fmt_0d_length (w : nat) (n : N) :
  n < 10 ^ N.of_nat w -> (1 <= w)%nat -> length (fmt_0d w n) = w.
Proof.
  intros Hn Hw. unfold fmt_0d, str_of_N.
  pose proof (dec_digits_length (S (N.to_nat (N.log2 n))) n [] w Hn Hw) as H.
  cbn [length] in H. rewrite length_app, repeat_length. lia.
Qed.

Lemma matches_shape_app (sh1 sh2 : string) (s1 s2 : str) :
  matches_shape sh1 s1 = true -> matches_shape sh2 s2 = true ->
  matches_shape (sh1 ++ sh2)%string (s1 ++ s2) = true.
Proof.
  revert s1. induction sh1 as [| a sh1 IH]; intros [| c s1];
    cbn [matches_shape String.append app]; try discriminate; [auto |].
  intros H1 H2. apply andb_prop in H1 as [Hc H1].
  change (String a sh1 ++ sh2)%string with (String a (sh1 ++ sh2)).
  cbn [matches_shape]. rewrite Hc. exact (IH _ H1 H2).
Qed.

Lemma matches_shape_digits (s : str) :
  forallb is_digit s = true -> matches_shape (digits_shape (length s)) s = true.
Proof.
  induction s as [| c s IH]; [reflexivity |].
  cbn [forallb length digits_shape matches_shape].
  intros H. apply andb_prop in H as [Hc H].
  change (N_of_ascii "d" =? 100) with true. cbv iota.
  rewrite Hc. exact (IH H).
Qed.

Lemma matches_shape_fmt_0d (w : nat) (n : N) :
  n < 10 ^ N.of_nat w -> (1 <= w)%nat ->
  matches_shape (digits_shape w) (fmt_0d w n) = true.
Proof.
  intros Hn Hw. rewrite <- (fmt_0d_length w n Hn Hw) at 1.
  apply matches_shape_digits, fmt_0d_digits.
Qed.

(** Replacing the offset: in a text whose only plus sign opens the final
    [+00:00], that suffix becomes [Z] and nothing else changes. *)
Lemma str_replace_utc_offset (p : str) :
  forallb (fun c => negb (c =? 43)) p = true ->
  str_replace (lit "+00:00") (lit "Z") (p ++ lit "+00:00") = p ++ lit "Z".
Proof.
  intros H. change (str_replace (lit "+00:00") (lit "Z") (p ++ lit "+00:00"))
    with (replace_from (lit "+00:00") (lit "Z") 0 (p ++ lit "+00:00")).
  induction p as [| c p IH]; [reflexivity |].
  cbn [forallb] in H. apply andb_prop in H as [Hc H].
  apply negb_true_iff in Hc.
  rewrite N.eqb_sym in Hc.
  cbn [app replace_from].
  change (lit "+00:00") with (43 :: lit "00:00") at 1.
  cbn [startswith]. rewrite Hc. cbn [andb app].
  f_equal. exact (IH H).
Qed.

Lemma fmt_0d_no_plus (w : nat) (n : N) :
  forallb (fun c => negb (c =? 43)) (fmt_0d w n) = true.
Proof.
  pose proof (fmt_0d_digits w n) as H. rewrite forallb_forall in H.
  apply forallb_forall. intros c Hc. specialize (H c Hc).
  unfold is_digit in H. apply andb_prop in H as [H _]. apply N.leb_le in H.
  apply negb_true_iff, N.eqb_neq. lia.
Qed.

(** C7: for every instant the clock can return, [generate_timestamp] has the
    shape YYYY-MM-DDTHH:MM:SS.mmmZ: four, two and two digits for the date,
    [T], two digits each for hours, minutes and seconds, a point, exactly
    three digits of milliseconds, and the letter [Z] in place of the numeric
    offset; 24 characters in all. *)
Theorem generate_timestamp_format (now : datetime) :
  datetime_ok now = true ->
  is_iso_millis_z (generate_timestamp now) = true
  /\ length (generate_timestamp now) = 24%nat
  /\ contains (lit "+") (generate_timestamp now) = false.
Proof.
  intros Hok. unfold datetime_ok in Hok.
  repeat match type of Hok with
         | (_ && _) = true => apply andb_prop in Hok as [Hok ?]
         end.
  repeat match goal with
         | H : (_ <=? _) = true |- _ => apply N.leb_le in H
         | H : (_ <? _) = true |- _ => apply N.ltb_lt in H
         end.
  assert (Hms : microsecond now / 1000 < 1000)
    by (apply N.Div0.div_lt_upper_bound; lia).
  set (body :=
    fmt_0d 4 (year now) ++ lit "-" ++ fmt_0d 2 (month now) ++ lit "-"
    ++ fmt_0d 2 (day now) ++ lit "T" ++ fmt_0d 2 (hour now) ++ lit ":"
    ++ fmt_0d 2 (minute now) ++ lit ":" ++ fmt_0d 2 (second now) ++ lit "."
    ++ fmt_0d 3 (microsecond now / 1000)).
  assert (Hiso : isoformat_milliseconds now = body ++ lit "+00:00").
  { unfold isoformat_milliseconds, body. rewrite <- ?app_assoc. reflexivity. }
  assert (Hplus : forallb (fun c => negb (c =? 43)) body = true).
  { unfold body. rewrite ?forallb_app, ?fmt_0d_no_plus. reflexivity. }
  assert (Hgen : generate_timestamp now = body ++ lit "Z").
  { unfold generate_timestamp. rewrite Hiso. exact (str_replace_utc_offset body Hplus). }
  assert (Hshape : is_iso_millis_z (body ++ lit "Z") = true).
  { unfold is_iso_millis_z, body. rewrite <- ?app_assoc.
    change "dddd-dd-ddTdd:dd:dd.dddZ"%string with
      (digits_shape 4 ++ "-" ++ digits_shape 2 ++ "-" ++ digits_shape 2 ++ "T"
       ++ digits_shape 2 ++ ":" ++ digits_shape 2 ++ ":" ++ digits_shape 2 ++ "."
       ++ digits_shape 3 ++ "Z")%string.
    repeat (apply matches_shape_app;
            [first [ reflexivity
                   | apply matches_shape_fmt_0d;
                     [ first [ change (10 ^ N.of_nat 4) with 10000
                             | change (10 ^ N.of_nat 3) with 1000
                             | change (10 ^ N.of_nat 2) with 100 ]; lia
                     | lia ] ] |]).
    reflexivity. }
  rewrite Hgen. split; [exact Hshape |]. split.
  - unfold body. rewrite !length_app, !fmt_0d_length; try lia;
      first [reflexivity | idtac].
    all: first [ change (10 ^ N.of_nat 4) with 10000
               | change (10 ^ N.of_nat 3) with 1000
               | change (10 ^ N.of_nat 2) with 100 ]; lia.
  - clear Hgen Hiso Hshape. revert Hplus. generalize body. intros b Hb.
    induction b as [| c b IH]; [reflexivity |].
    cbn [forallb] in Hb. apply andb_prop in Hb as [Hc Hb].
    apply negb_true_iff in Hc. rewrite N.eqb_sym in Hc.
    cbn [app contains]. change (lit "+") with [43]. cbn [startswith].
    rewrite Hc. cbn [andb orb]. exact (IH Hb).
Qed.

Lemma generate_timestamp_format_witness :
  datetime_ok (Datetime 1999 12 31 23 59 59 999999) = true
  /\ generate_timestamp (Datetime 1999 12 31 23 59 59 999999)
     = lit "1999-12-31T23:59:59.999Z"
  /\ is_iso_millis_z (generate_timestamp (Datetime 1999 12 31 23 59 59 999999)) = true.
Proof.
  split; [reflexivity |]. split; [vm_compute; reflexivity |].
  exact (proj1 (generate_timestamp_format (Datetime 1999 12 31 23 59 59 999999) eq_refl)).
Defined.

(** ** The signature *)

Section Encoding.

Lemma utf8_char_scalar (c : N) :
  scalar c = true -> exists bs, utf8_char c = inr bs.
Proof.
  unfold scalar, utf8_char. intros H.
  assert (Hs : c < 55296 \/ (57343 < c /\ c < 1114112)).
  { apply orb_prop in H as [H | H]; [left; apply N.ltb_lt, H |].
    apply andb_prop in H as [H1 H2]. right. split; apply N.ltb_lt; assumption. }
  clear H.
  destruct (N.ltb_spec c 128); [eauto |].
  destruct (N.ltb_spec c 2048); [eauto |].
  destruct (N.ltb_spec c 65536).
  - destruct (N.leb_spec 55296 c), (N.leb_spec c 57343); cbn [andb]; eauto.
    exfalso. lia.
  - destruct (N.ltb_spec c 1114112); [eauto |]. exfalso. lia.
Qed.

Lemma utf8_char_error (c : N) (e : exn) :
  utf8_char c = inl e -> e = UnicodeEncodeError c /\ scalar c = false.
Proof.
  destruct (scalar c) eqn:E.
  - destruct (utf8_char_scalar c E) as [bs ->]. discriminate.
  - unfold utf8_char.
    repeat match goal with
           | |- context [if ?b then _ else _] => destruct b
           end; intros H; inversion H; auto.
Qed.

Lemma utf8_encode_encodable (s : str) :
  encodable s = true -> exists bs, utf8_encode s = inr bs.
Proof.
  induction s as [| c s IH]; cbn [encodable forallb utf8_encode]; [eauto |].
  intros H. apply andb_prop in H as [Hc Hs].
  destruct (utf8_char_scalar c Hc) as [bs ->].
  destruct (IH Hs) as [rest ->]. eauto.
Qed.

Lemma utf8_encode_error (s : str) (e : exn) :
  utf8_encode s = inl e ->
  exists c, e = UnicodeEncodeError c /\ c ∈ s /\ scalar c = false.
Proof.
  induction s as [| c s IH]; cbn [utf8_encode]; [discriminate |].
  destruct (utf8_char c) as [e' | bs] eqn:Ec.
  - intros H. inversion H. subst e'.
    destruct (utf8_char_error c e Ec) as [-> Hc].
    exists c. split; [reflexivity |]. split; [left | exact Hc].
  - destruct (utf8_encode s) as [e' | rest]; [| discriminate].
    intros H. inversion H. subst e'.
    destruct (IH eq_refl) as (c' & -> & Hin & Hc').
    exists c'. split; [reflexivity |]. split; [right; exact Hin | exact Hc'].
Qed.

(** Text below U+0080 is its own encoding. *)
Lemma utf8_encode_ascii (s : str) :
  forallb (fun c => c <? 0x80) s = true -> utf8_encode s = inr s.
Proof.
  induction s as [| c s IH]; cbn [forallb utf8_encode]; [reflexivity |].
  intros H. apply andb_prop in H as [Hc Hs]. unfold utf8_char.
  rewrite Hc, (IH Hs). reflexivity.
Qed.

End Encoding.

Section Digest.

Lemma land_octet (x : N) : N.land x 0xFF < 256.
Proof.
  change 0xFF with (N.ones 8). rewrite N.land_ones.
  apply N.mod_upper_bound. discriminate.
Qed.

Lemma be_bytes_octets (k : nat) (n : N) :
  forallb (fun b => b <? 256) (Sha256.be_bytes k n) = true.
Proof.
  induction k as [| j IH]; [reflexivity |]. cbn [Sha256.be_bytes forallb].
  rewrite IH, andb_true_r. apply N.ltb_lt, land_octet.
Qed.

(** A SHA-256 digest is 32 octets. *)
Lemma sha256_digest_length (msg : bytes) : length (Sha256.digest msg) = 32%nat.
Proof. reflexivity. Qed.

Lemma sha256_digest_octets (msg : bytes) :
  forallb (fun b => b <? 256) (Sha256.digest msg) = true.
Proof.
  unfold Sha256.digest, Sha256.state_bytes, Sha256.word_bytes.
  rewrite ?forallb_app, ?be_bytes_octets. reflexivity.
Qed.

Lemma hex_digit_lower (d : N) : d < 16 -> is_lower_hex (hex_digit d) = true.
Proof.
  intros H. unfold is_lower_hex, hex_digit.
  destruct (N.ltb_spec d 10).
  - apply orb_true_intro. left. apply andb_true_intro. split; apply N.leb_le; lia.
  - apply orb_true_intro. right. apply andb_true_intro. split; apply N.leb_le; lia.
Qed.

Lemma hex_of_bytes_length (bs : bytes) :
  length (hex_of_bytes bs) = (2 * length bs)%nat.
Proof.
  induction bs as [| b bs IH]; [reflexivity |].
  cbn [hex_of_bytes flat_map length app] in *. unfold hex_of_bytes in IH.
  rewrite IH. lia.
Qed.

Lemma hex_of_bytes_lower (bs : bytes) :
  forallb (fun b => b <? 256) bs = true ->
  forallb is_lower_hex (hex_of_bytes bs) = true.
Proof.
  induction bs as [| b bs IH]; [reflexivity |].
  cbn [forallb hex_of_bytes flat_map app]. intros H.
  apply andb_prop in H as [Hb Hbs]. apply N.ltb_lt in Hb.
  rewrite !hex_digit_lower.
  - exact (IH Hbs).
  - apply N.mod_upper_bound. discriminate.
  - apply N.Div0.div_lt_upper_bound. exact Hb.
Qed.

(** The [HMAC] object computes the construction of RFC 2104. *)
Lemma hmac_digest_rfc2104 (key msg : bytes) :
  Hmac.digest (Hmac.new key msg) = Hmac.rfc2104 key msg.
Proof.
  unfold Hmac.digest, Hmac.new, Hmac.update, Hmac.hash_digest, Hmac.hash_update,
    Hmac.hash_new, Hmac.rfc2104, Hmac.block_key, Hmac.ljust, Hmac.translate,
    Sha256.block_size.
  cbn [Hmac._inner Hmac._outer Hmac.fed app].
  do 2 f_equal.
  - apply map_ext. intros b. apply N.lxor_comm.
  - do 2 f_equal. apply map_ext. intros b. apply N.lxor_comm.
Qed.

Lemma hmac_hexdigest_shape (key msg : bytes) :
  length (Hmac.hexdigest (Hmac.new key msg)) = 64%nat
  /\ forallb is_lower_hex (Hmac.hexdigest (Hmac.new key msg)) = true.
Proof.
  unfold Hmac.hexdigest, Hmac.digest, Hmac.hash_digest. split.
  - rewrite hex_of_bytes_length, sha256_digest_length. reflexivity.
  - apply hex_of_bytes_lower, sha256_digest_octets.
Qed.

End Digest.

(** C10: the key of the HMAC is the UTF-8 encoding of the secret text and
    its message the UTF-8 encoding of the payload text: whenever the two
    encodings exist, the tag is the one [hmac.new] gives for these octets
    (all below 256), so a text secret outside ASCII is keyed by its
    multi-octet encoding. *)
Theorem compute_signature_keyed_by_utf8 (payload secret : str) (key msg : bytes) :
  utf8_encode secret = inr key -> utf8_encode payload = inr msg ->
  compute_signature payload secret = Return (Hmac.hexdigest (Hmac.new key msg))
  /\ Hmac.hexdigest (Hmac.new key msg) = hex_of_bytes (Hmac.rfc2104 key msg)
  /\ forallb (fun b => b <? 256) key = true
  /\ forallb (fun b => b <? 256) msg = true.
Proof.
  intros Hk Hm. unfold compute_signature. rewrite Hm, Hk. split; [reflexivity |].
  split; [unfold Hmac.hexdigest; rewrite hmac_digest_rfc2104; reflexivity |].
  split; [exact (utf8_encode_octets _ _ Hk) | exact (utf8_encode_octets _ _ Hm)].
Qed.

Lemma compute_signature_keyed_by_utf8_witness :
  utf8_encode [0x63; 0x6C; 0xE9] = inr [0x63; 0x6C; 0xC3; 0xA9]
  /\ utf8_encode (lit "{}") = inr (lit "{}")
  /\ compute_signature (lit "{}") [0x63; 0x6C; 0xE9]
     = Return (Hmac.hexdigest (Hmac.new [0x63; 0x6C; 0xC3; 0xA9] (lit "{}"))).
Proof.
  split; [reflexivity |]. split; [reflexivity |].
  exact (proj1 (compute_signature_keyed_by_utf8 (lit "{}") [0x63; 0x6C; 0xE9]
                  [0x63; 0x6C; 0xC3; 0xA9] (lit "{}") eq_refl eq_refl)).
Defined.

Example utf8_key_differs_from_code_points :
  Hmac.hexdigest (Hmac.new [0x63; 0x6C; 0xC3; 0xA9] (lit "{}"))
  = lit "601f34a13f988e6e9f3a8069cc08856e777dd3fbb72f8fe98b9dc72c91b76269"
  /\ Hmac.hexdigest (Hmac.new [0x63; 0x6C; 0xE9] (lit "{}"))
     = lit "a71e76e71e83c4450ae8379691fb693c78a4aad1fae93219c75f1d17b2dcdb43".
Proof. vm_compute. split; reflexivity. Qed.

(** C3, as the code has it: [compute_signature] makes no check of the key.
    With the empty key it returns the 64-character tag of the HMAC keyed
    with no octets; the only error it can signal is the [UnicodeEncodeError]
    of a lone surrogate in the payload or in the secret, and it never ends
    the process; a key free of lone surrogates, empty or not, gives a tag
    for every such payload.  An unset or empty [B12_SECRET] is turned away
    before, by [get_env_variable]. *)
Theorem compute_signature_checks_no_key (payload secret : str) :
  (encodable payload = true ->
     exists msg, utf8_encode payload = inr msg
       /\ compute_signature payload [] = Return (Hmac.hexdigest (Hmac.new [] msg))
       /\ length (Hmac.hexdigest (Hmac.new [] msg)) = 64%nat)
  /\ (forall e, compute_signature payload secret = Raise e ->
        exists c, e = UnicodeEncodeError c /\ c ∈ payload ++ secret /\ scalar c = false)
  /\ (forall code, compute_signature payload secret = Exit code -> False)
  /\ (encodable payload = true -> encodable secret = true ->
        exists tag, compute_signature payload secret = Return tag)
  /\ (forall environ : gmap str str,
        falsy (environ !! lit "B12_SECRET") = true ->
        get_env_variable environ (lit "B12_SECRET")
        = ([Stderr (not_set_message (lit "B12_SECRET") ++ [ch_newline])], Exit 1)).
Proof.
  split; [| split; [| split; [| split]]].
  - intros Hp. destruct (utf8_encode_encodable payload Hp) as [msg Hm].
    exists msg. split; [exact Hm |]. split.
    + unfold compute_signature. rewrite Hm. reflexivity.
    + apply hmac_hexdigest_shape.
  - intros e. unfold compute_signature.
    destruct (utf8_encode payload) as [e1 | msg] eqn:Hm.
    + intros H. inversion H. subst e1.
      destruct (utf8_encode_error payload e Hm) as (c & -> & Hin & Hc).
      exists c. split; [reflexivity |]. split; [| exact Hc].
      apply elem_of_app. left. exact Hin.
    + destruct (utf8_encode secret) as [e2 | key] eqn:Hk; [| discriminate].
      intros H. inversion H. subst e2.
      destruct (utf8_encode_error secret e Hk) as (c & -> & Hin & Hc).
      exists c. split; [reflexivity |]. split; [| exact Hc].
      apply elem_of_app. right. exact Hin.
  - intros code. unfold compute_signature.
    destruct (utf8_encode payload); [discriminate |].
    destruct (utf8_encode secret); discriminate.
  - intros Hp Hs.
    destruct (utf8_encode_encodable payload Hp) as [msg Hm].
    destruct (utf8_encode_encodable secret Hs) as [key Hk].
    unfold compute_signature. rewrite Hm, Hk. eauto.
  - intros environ H. unfold get_env_variable. rewrite H. reflexivity.
Qed.

(** C3, as stated, fails: the empty key is signed with like any other. *)
Lemma compute_signature_empty_key :
  compute_signature [] []
  = Return (lit "b613679a0814d9ec772f95d778c35fc5ff1697c493715653c6c712144292c5ad")
  /\ compute_signature sample_payload []
     = Return (lit "59682719b6771e0852f83558ad6debe2b6872773ec4eb03501ea5aa7822ca242").
Proof. vm_compute. split; reflexivity. Qed.

(** ** Reading the configuration *)

Lemma get_env_variable_missing (environ : gmap str str) (name : str) :
  falsy (environ !! name) = true ->
  get_env_variable environ name
  = ([Stderr (not_set_message name ++ [ch_newline])], Exit 1).
Proof. intros H. unfold get_env_variable. rewrite H. reflexivity. Qed.

Lemma get_env_variable_present (environ : gmap str str) (name : str) :
  falsy (environ !! name) = false ->
  get_env_variable environ name = ([], Return (strip (default [] (environ !! name)))).
Proof. intros H. unfold get_env_variable. rewrite H. reflexivity. Qed.

(** What a returned value is: the stripped text of a variable that is set
    and not empty; nothing is printed. *)
Lemma get_env_variable_returns (environ : gmap str str) (name v : str)
                               (evs : list event) :
  get_env_variable environ name = (evs, Return v) ->
  evs = [] /\ falsy (environ !! name) = false
  /\ exists raw, environ !! name = Some raw /\ raw <> [] /\ v = strip raw.
Proof.
  destruct (falsy (environ !! name)) eqn:E.
  - rewrite (get_env_variable_missing _ _ E). discriminate.
  - rewrite (get_env_variable_present _ _ E). intros H. inversion H. subst.
    split; [reflexivity |]. split; [reflexivity |].
    destruct (environ !! name) as [[| c raw] |]; try discriminate.
    exists (c :: raw). split; [reflexivity |]. split; [discriminate | reflexivity].
Qed.

(** ** Stripped values *)

Section Strip.

Lemma lstrip_head (s r : str) (c : N) : lstrip s = c :: r -> is_space c = false.
Proof.
  induction s as [| a s IH]; cbn [lstrip]; [discriminate |].
  destruct (is_space a) eqn:E; [exact IH |].
  intros H. inversion H. subst. exact E.
Qed.

Lemma lstrip_suffix (s : str) : exists pre, s = pre ++ lstrip s.
Proof.
  induction s as [| a s [pre IH]]; [exists []; reflexivity |].
  cbn [lstrip]. destruct (is_space a).
  - exists (a :: pre). cbn [app]. f_equal. exact IH.
  - exists []. reflexivity.
Qed.

Lemma rstrip_prefix (s : str) : exists suf, s = rstrip s ++ suf.
Proof.
  unfold rstrip. destruct (lstrip_suffix (rev s)) as [pre H].
  exists (rev pre). rewrite <- rev_app_distr, <- H, rev_involutive. reflexivity.
Qed.

Lemma rstrip_last (s : str) (c : N) : last (rstrip s) = Some c -> is_space c = false.
Proof.
  unfold rstrip. destruct (lstrip (rev s)) as [| a r] eqn:E; [discriminate |].
  cbn [rev]. rewrite last_snoc. intros H. inversion H. subst.
  exact (lstrip_head _ _ _ E).
Qed.

(** A stripped text neither begins nor ends with white space. *)
Lemma strip_trimmed (s : str) (c : N) :
  (head (strip s) = Some c -> is_space c = false)
  /\ (last (strip s) = Some c -> is_space c = false).
Proof.
  unfold strip. split; [| apply rstrip_last].
  destruct (rstrip_prefix (lstrip s)) as [suf H].
  destruct (rstrip (lstrip s)) as [| a r]; [discriminate |].
  cbn [head]. intros Hc. inversion Hc. subst.
  exact (lstrip_head s _ _ H).
Qed.

End Strip.

(** A value [get_env_variable] returns is the stripped text of a variable
    that is set and not empty before stripping; it neither begins nor ends
    with white space, and the call prints nothing. *)
Theorem get_env_variable_returns_stripped
    (environ : gmap str str) (name v : str) (evs : list event) :
  get_env_variable environ name = (evs, Return v) ->
  evs = []
  /\ (exists raw, environ !! name = Some raw /\ raw <> [] /\ v = strip raw)
  /\ (forall c, head v = Some c -> is_space c = false)
  /\ (forall c, last v = Some c -> is_space c = false).
Proof.
  intros H. destruct (get_env_variable_returns _ _ _ _ H) as (-> & _ & raw & Hraw & Hne & ->).
  split; [reflexivity |]. split; [eauto |].
  split; intros c; apply strip_trimmed.
Qed.

Lemma get_env_variable_returns_stripped_witness :
  let environ := <[lit "B12_NAME" := lit "  Ada Lovelace "]> sample_environ in
  get_env_variable environ (lit "B12_NAME") = ([], Return (lit "Ada Lovelace"))
  /\ exists raw, environ !! lit "B12_NAME" = Some raw /\ lit "Ada Lovelace" = strip raw.
Proof.
  cbv zeta.
  assert (H : get_env_variable (<[lit "B12_NAME" := lit "  Ada Lovelace "]> sample_environ)
                (lit "B12_NAME") = ([], Return (lit "Ada Lovelace")))
    by (vm_compute; reflexivity).
  split; [exact H |].
  destruct (get_env_variable_returns_stripped _ _ _ _ H) as (_ & (raw & Hraw & _ & Hv) & _).
  exists raw. split; [exact Hraw | exact Hv].
Defined.

(** ** Reading the payload back *)

Example read_object_sample :
  read_object sample_payload
  = Some [ (lit "action_run_link", lit "https://x/run/1");
           (lit "email", lit "ada@example.com");
           (lit "name", lit "Ada Lovelace");
           (lit "repository_link", lit "https://x/repo");
           (lit "resume_link", lit "https://x/r.pdf");
           (lit "timestamp", lit "2024-01-01T00:00:00.000Z") ].
Proof. vm_compute. reflexivity. Qed.

Example read_timestamp_sample :
  read_timestamp (lit "1999-12-31T23:59:59.999Z")
  = Some (Datetime 1999 12 31 23 59 59 999000).
Proof. vm_compute. reflexivity. Qed.

Section ReadBack.

Lemma string_run_app (e : esc) (acc l1 l2 : str) :
  string_run e acc (l1 ++ l2)
  = match string_run e acc l1 with
    | Go e' acc' => string_run e' acc' l2
    | other => other
    end.
Proof.
  revert e acc. induction l1 as [| c l1 IH]; intros e acc; [reflexivity |].
  cbn [app string_run]. destruct (string_step e acc c); auto.
Qed.

Lemma string_run_unicode_escape (c : N) (acc : str) :
  c < 32 ->
  string_run NoEsc acc (ch_backslash :: 117 :: fmt_04x c) = Go NoEsc (c :: acc).
Proof.
  intros Hc. destruct c as [| p]; [reflexivity |].
  do 5 (try destruct p as [p | p |]); try (exfalso; lia); reflexivity.
Qed.

(** What [Json.escape_char] writes for a character is read back as that
    character. *)
Lemma string_run_escape_char (c : N) (acc : str) :
  string_run NoEsc acc (Json.escape_char c) = Go NoEsc (c :: acc).
Proof.
  unfold Json.escape_char.
  repeat match goal with
         | |- context [if ?x =? ?y then _ else _] =>
             destruct (N.eqb_spec x y) as [-> | ?]; [reflexivity |]
         end.
  destruct (N.ltb_spec c 32) as [Hc | Hc].
  - apply string_run_unicode_escape. exact Hc.
  - cbn [string_run string_step].
    destruct (N.eqb_spec c ch_backslash); [contradiction |].
    destruct (N.eqb_spec c ch_quote); [contradiction |].
    destruct (N.ltb_spec c 32); [lia | reflexivity].
Qed.

Lemma string_run_escaped (v acc : str) :
  string_run NoEsc acc (flat_map Json.escape_char v) = Go NoEsc (rev v ++ acc).
Proof.
  revert acc. induction v as [| c v IH]; intros acc; [reflexivity |].
  cbn [flat_map rev]. rewrite string_run_app, string_run_escape_char, IH.
  rewrite <- app_assoc. reflexivity.
Qed.

Lemma read_in_key (l rest : str) (e e' : esc) (acc acc' : str)
                  (items : list (str * str)) :
  string_run e acc l = Go e' acc' ->
  fold_left read_step (l ++ rest) (RInKey e acc, items)
  = fold_left read_step rest (RInKey e' acc', items).
Proof.
  revert e acc. induction l as [| c l IH]; intros e acc H.
  - cbn in H. inversion H. reflexivity.
  - cbn [string_run] in H. cbn [app fold_left]. unfold read_step at 2. cbn [fst snd].
    destruct (string_step e acc c) as [e1 acc1 | a |]; try discriminate.
    exact (IH _ _ H).
Qed.

Lemma read_in_value (key l rest : str) (e e' : esc) (acc acc' : str)
                    (items : list (str * str)) :
  string_run e acc l = Go e' acc' ->
  fold_left read_step (l ++ rest) (RInValue key e acc, items)
  = fold_left read_step rest (RInValue key e' acc', items).
Proof.
  revert e acc. induction l as [| c l IH]; intros e acc H.
  - cbn in H. inversion H. reflexivity.
  - cbn [string_run] in H. cbn [app fold_left]. unfold read_step at 2. cbn [fst snd].
    destruct (string_step e acc c) as [e1 acc1 | a |]; try discriminate.
    exact (IH _ _ H).
Qed.

(** One member is read back as its name and value, whatever they hold. *)
Lemma read_member (k v rest : str) (items : list (str * str)) :
  fold_left read_step
    (Json.encode_basestring k ++ lit ":" ++ Json.encode_basestring v ++ rest)
    (RKey, items)
  = fold_left read_step rest (RAfter, (k, v) :: items)
  /\ fold_left read_step
    (Json.encode_basestring k ++ lit ":" ++ Json.encode_basestring v ++ rest)
    (RFirstKey, items)
  = fold_left read_step rest (RAfter, (k, v) :: items).
Proof.
  assert (Hrest :
    fold_left read_step
      (flat_map Json.escape_char k
       ++ ch_quote :: 58 :: ch_quote :: flat_map Json.escape_char v ++ ch_quote :: rest)
      (RInKey NoEsc [], items)
    = fold_left read_step rest (RAfter, (k, v) :: items)).
  { rewrite (read_in_key _ _ _ _ _ _ items (string_run_escaped k [])).
    rewrite app_nil_r. cbn [fold_left].
    change (read_step (RInKey NoEsc (rev k), items) ch_quote)
      with (RColon (rev (rev k)), items).
    change (read_step (RColon (rev (rev k)), items) 58)
      with (RValue (rev (rev k)), items).
    change (read_step (RValue (rev (rev k)), items) ch_quote)
      with (RInValue (rev (rev k)) NoEsc [], items).
    rewrite (read_in_value _ _ _ _ _ _ _ items (string_run_escaped v [])).
    rewrite app_nil_r. cbn [fold_left].
    change (read_step (RInValue (rev (rev k)) NoEsc (rev v), items) ch_quote)
      with (RAfter, (rev (rev k), rev (rev v)) :: items).
    rewrite !rev_involutive. reflexivity. }
  unfold Json.encode_basestring. change (lit ":") with [58].
  cbn [app]. rewrite <- ?app_assoc. cbn [app fold_left].
  change (read_step (RKey, items) ch_quote) with (RInKey NoEsc [], items).
  change (read_step (RFirstKey, items) ch_quote) with (RInKey NoEsc [], items).
  split; exact Hrest.
Qed.

Lemma read_more_members (kvs : list (str * str)) (rest : str)
                        (items : list (str * str)) :
  fold_left read_step
    (flat_map (fun q => lit "," ++ q) (map (Json.member (lit ":")) kvs) ++ rest)
    (RAfter, items)
  = fold_left read_step rest (RAfter, rev kvs ++ items).
Proof.
  revert items. induction kvs as [| [k v] kvs IH]; intros items; [reflexivity |].
  cbn [map flat_map]. unfold Json.member at 1. cbn [fst snd].
  change (lit ",") with [44]. rewrite <- !app_assoc. cbn [app fold_left].
  change (read_step (RAfter, items) 44) with (RKey, items).
  rewrite (proj1 (read_member k v _ items)), IH.
  cbn [rev]. rewrite <- app_assoc. reflexivity.
Qed.

Lemma read_dumps_state (d : list (str * str)) :
  fold_left read_step (Json.dumps (lit ",") (lit ":") d) (RStart, [])
  = (REnd, rev (Json.sorted_items d)).
Proof.
  unfold Json.dumps. destruct d as [| x d]; [reflexivity |].
  remember (Json.sorted_items (x :: d)) as kvs eqn:E. clear E.
  destruct kvs as [| [k v] kvs]; [reflexivity |].
  unfold Json.join. cbn [map]. unfold Json.member at 1. cbn [fst snd].
  change (lit "{") with [123]. rewrite <- !app_assoc. cbn [app fold_left].
  change (read_step (RStart, []) 123) with (RFirstKey, @nil (list N * list N)).
  rewrite (proj2 (read_member k v _ [])), read_more_members.
  reflexivity.
Qed.

(** The text [Json.dumps] writes for a dictionary of strings is read back
    as the items of the dictionary, sorted. *)
Lemma read_object_dumps (d : list (str * str)) :
  read_object (Json.dumps (lit ",") (lit ":") d) = Some (Json.sorted_items d).
Proof.
  unfold read_object. rewrite read_dumps_state. cbn [fst snd].
  rewrite rev_involutive. reflexivity.
Qed.

End ReadBack.

(** Reading back the text [create_payload] returns gives the six fields with
    the values it was given, whatever characters they hold; so two calls
    return the same text only for the same six values. *)
Theorem create_payload_read_back
    (timestamp name email resume_link repository_link action_run_link : str) :
  read_object
    (create_payload timestamp name email resume_link repository_link action_run_link)
  = Some [ (lit "action_run_link", action_run_link);
           (lit "email", email);
           (lit "name", name);
           (lit "repository_link", repository_link);
           (lit "resume_link", resume_link);
           (lit "timestamp", timestamp) ]
  /\ (forall timestamp' name' email' resume_link' repository_link' action_run_link',
        create_payload timestamp name email resume_link repository_link action_run_link
        = create_payload timestamp' name' email' resume_link' repository_link'
            action_run_link' ->
        timestamp = timestamp' /\ name = name' /\ email = email'
        /\ resume_link = resume_link' /\ repository_link = repository_link'
        /\ action_run_link = action_run_link').
Proof.
  assert (Hread : forall t n e r p a,
    read_object (create_payload t n e r p a)
    = Some [ (lit "action_run_link", a); (lit "email", e); (lit "name", n);
             (lit "repository_link", p); (lit "resume_link", r);
             (lit "timestamp", t) ]).
  { intros. unfold create_payload. rewrite read_object_dumps.
    rewrite sorted_payload_items. reflexivity. }
  split; [apply Hread |].
  intros t' n' e' r' p' a' Heq.
  pose proof (Hread timestamp name email resume_link repository_link action_run_link) as H1.
  rewrite Heq, Hread in H1. inversion H1. repeat split; reflexivity.
Qed.

Example create_payload_read_back_escapes :
  read_object (create_payload (lit "t") [34; 92; 10; 1; 0x7F; 0xE9; 0x1F600]
                 (lit "e") (lit "r") (lit "p") [34; 44; 34; 58; 34])
  = Some [ (lit "action_run_link", [34; 44; 34; 58; 34]); (lit "email", lit "e");
           (lit "name", [34; 92; 10; 1; 0x7F; 0xE9; 0x1F600]);
           (lit "repository_link", lit "p"); (lit "resume_link", lit "r");
           (lit "timestamp", lit "t") ].
Proof. vm_compute. reflexivity. Qed.

Lemma escape_char_no_control (c : N) :
  forallb (fun x => 0x20 <=? x) (Json.escape_char c) = true.
Proof.
  unfold Json.escape_char.
  repeat match goal with
         | |- context [if ?x =? ?y then _ else _] =>
             destruct (N.eqb_spec x y); [reflexivity |]
         end.
  destruct (N.ltb_spec c 32).
  - assert (Hd : forall d, (32 <=? hex_digit d) = true).
    { intros d. unfold hex_digit. destruct (d <? 10); apply N.leb_le; lia. }
    unfold fmt_04x. cbn [forallb]. rewrite !Hd. reflexivity.
  - cbn [forallb]. rewrite andb_true_r. apply N.leb_le. assumption.
Qed.

Lemma encode_basestring_no_control (s : str) :
  forallb (fun x => 0x20 <=? x) (Json.encode_basestring s) = true.
Proof.
  assert (H : forallb (fun x => 0x20 <=? x) (flat_map Json.escape_char s) = true).
  { induction s as [| c s IH]; [reflexivity |].
    cbn [flat_map]. rewrite forallb_app, escape_char_no_control, IH. reflexivity. }
  unfold Json.encode_basestring.
  change (forallb (fun x => 0x20 <=? x) (flat_map Json.escape_char s ++ [ch_quote])
          = true).
  rewrite forallb_app, H. reflexivity.
Qed.

(** The text [create_payload] returns holds no control character below
    U+0020, whatever the values hold: it is a single line, with no line
    break inside and none at the end. *)
Theorem create_payload_single_line
    (timestamp name email resume_link repository_link action_run_link : str) :
  forallb (fun c => 0x20 <=? c)
    (create_payload timestamp name email resume_link repository_link action_run_link)
  = true
  /\ contains [ch_newline]
       (create_payload timestamp name email resume_link repository_link action_run_link)
     = false.
Proof.
  assert (H : forallb (fun c => 0x20 <=? c)
    (create_payload timestamp name email resume_link repository_link action_run_link)
    = true).
  { rewrite create_payload_layout.
    rewrite ?forallb_app, ?encode_basestring_no_control. reflexivity. }
  split; [exact H |].
  revert H. generalize (create_payload timestamp name email resume_link
                          repository_link action_run_link).
  intros l. induction l as [| c l IH]; [reflexivity |].
  cbn [forallb contains startswith]. intros H. apply andb_prop in H as [Hc Hl].
  apply N.leb_le in Hc. unfold ch_newline.
  destruct (N.eqb_spec 10 c); [lia |]. cbn [andb orb]. exact (IH Hl).
Qed.

(** ** Reading the timestamp back *)

Section TimestampReadBack.

Lemma dec_value_zeros (k : nat) (ds : str) :
  dec_value (repeat 48 k ++ ds) = dec_value ds.
Proof.
  unfold dec_value. rewrite fold_left_app. f_equal.
  induction k as [| k IH]; [reflexivity | exact IH].
Qed.

(** Padding with zeros keeps the number written. *)
Lemma dec_value_fmt_0d (w : nat) (n : N) : dec_value (fmt_0d w n) = n.
Proof. unfold fmt_0d. rewrite dec_value_zeros. apply str_of_N_value. Qed.

(** The text of the timestamp: the fields, their separators and [Z]. *)
Lemma generate_timestamp_fields (now : datetime) :
  generate_timestamp now
  = fmt_0d 4 (year now) ++ lit "-" ++ fmt_0d 2 (month now) ++ lit "-"
    ++ fmt_0d 2 (day now) ++ lit "T" ++ fmt_0d 2 (hour now) ++ lit ":"
    ++ fmt_0d 2 (minute now) ++ lit ":" ++ fmt_0d 2 (second now) ++ lit "."
    ++ fmt_0d 3 (microsecond now / 1000) ++ lit "Z".
Proof.
  set (body :=
    fmt_0d 4 (year now) ++ lit "-" ++ fmt_0d 2 (month now) ++ lit "-"
    ++ fmt_0d 2 (day now) ++ lit "T" ++ fmt_0d 2 (hour now) ++ lit ":"
    ++ fmt_0d 2 (minute now) ++ lit ":" ++ fmt_0d 2 (second now) ++ lit "."
    ++ fmt_0d 3 (microsecond now / 1000)).
  assert (Hplus : forallb (fun c => negb (c =? 43)) body = true).
  { unfold body. rewrite ?forallb_app, ?fmt_0d_no_plus. reflexivity. }
  transitivity (body ++ lit "Z").
  - unfold generate_timestamp.
    replace (isoformat_milliseconds now) with (body ++ lit "+00:00").
    + exact (str_replace_utc_offset body Hplus).
    + unfold isoformat_milliseconds, body. rewrite <- ?app_assoc. reflexivity.
  - unfold body. rewrite <- ?app_assoc. reflexivity.
Qed.

Lemma two_digits (n : N) :
  n < 100 ->
  exists a b, fmt_0d 2 n = [a; b] /\ is_digit a = true /\ is_digit b = true
              /\ dec_value [a; b] = n.
Proof.
  intros Hn. pose proof (fmt_0d_length 2 n Hn ltac:(lia)) as Hl.
  pose proof (fmt_0d_digits 2 n) as Hd. pose proof (dec_value_fmt_0d 2 n) as Hv.
  destruct (fmt_0d 2 n) as [| a [| b [| c l]]]; try discriminate.
  cbn [forallb] in Hd. apply andb_prop in Hd as [Ha Hd].
  apply andb_prop in Hd as [Hb _]. eauto 10.
Qed.

Lemma three_digits (n : N) :
  n < 1000 ->
  exists a b c, fmt_0d 3 n = [a; b; c] /\ is_digit a = true /\ is_digit b = true
                /\ is_digit c = true /\ dec_value [a; b; c] = n.
Proof.
  intros Hn. pose proof (fmt_0d_length 3 n Hn ltac:(lia)) as Hl.
  pose proof (fmt_0d_digits 3 n) as Hd. pose proof (dec_value_fmt_0d 3 n) as Hv.
  destruct (fmt_0d 3 n) as [| a [| b [| c [| d l]]]]; try discriminate.
  cbn [forallb] in Hd. apply andb_prop in Hd as [Ha Hd].
  apply andb_prop in Hd as [Hb Hd]. apply andb_prop in Hd as [Hc _]. eauto 12.
Qed.

Lemma four_digits (n : N) :
  n < 10000 ->
  exists a b c d, fmt_0d 4 n = [a; b; c; d] /\ is_digit a = true /\ is_digit b = true
                  /\ is_digit c = true /\ is_digit d = true
                  /\ dec_value [a; b; c; d] = n.
Proof.
  intros Hn. pose proof (fmt_0d_length 4 n Hn ltac:(lia)) as Hl.
  pose proof (fmt_0d_digits 4 n) as Hd. pose proof (dec_value_fmt_0d 4 n) as Hv.
  destruct (fmt_0d 4 n) as [| a [| b [| c [| d [| e l]]]]]; try discriminate.
  cbn [forallb] in Hd. apply andb_prop in Hd as [Ha Hd].
  apply andb_prop in Hd as [Hb Hd]. apply andb_prop in Hd as [Hc Hd].
  apply andb_prop in Hd as [Hd' _]. eauto 14.
Qed.

Lemma datetime_ok_bounds (d : datetime) :
  datetime_ok d = true ->
  year d < 10000 /\ month d < 100 /\ day d < 100 /\ hour d < 100
  /\ minute d < 100 /\ second d < 100 /\ microsecond d / 1000 < 1000.
Proof.
  intros Hok. unfold datetime_ok in Hok.
  repeat match type of Hok with
         | (_ && _) = true => apply andb_prop in Hok as [Hok ?]
         end.
  repeat match goal with
         | H : (_ <=? _) = true |- _ => apply N.leb_le in H
         | H : (_ <? _) = true |- _ => apply N.ltb_lt in H
         end.
  assert (microsecond d / 1000 < 1000) by (apply N.Div0.div_lt_upper_bound; lia).
  repeat split; lia.
Qed.

Lemma read_generate_timestamp (now : datetime) :
  datetime_ok now = true ->
  read_timestamp (generate_timestamp now) = Some (to_millisecond now).
Proof.
  intros Hok.
  destruct (datetime_ok_bounds now Hok) as (Hy & Hm & Hd & Hh & Hn & Hs & Hf).
  rewrite generate_timestamp_fields.
  destruct (four_digits _ Hy) as (y1 & y2 & y3 & y4 & -> & ? & ? & ? & ? & Vy).
  destruct (two_digits _ Hm) as (m1 & m2 & -> & ? & ? & Vm).
  destruct (two_digits _ Hd) as (d1 & d2 & -> & ? & ? & Vd).
  destruct (two_digits _ Hh) as (h1 & h2 & -> & ? & ? & Vh).
  destruct (two_digits _ Hn) as (n1 & n2 & -> & ? & ? & Vn).
  destruct (two_digits _ Hs) as (s1 & s2 & -> & ? & ? & Vs).
  destruct (three_digits _ Hf) as (f1 & f2 & f3 & -> & ? & ? & ? & Vf).
  change (lit "-") with [45]. change (lit "T") with [84]. change (lit ":") with [58].
  change (lit ".") with [46]. change (lit "Z") with [90].
  cbn [app]. unfold read_timestamp. cbn [forallb].
  repeat match goal with
         | H : is_digit ?x = true |- _ => rewrite H; clear H
         end.
  cbn [andb N.eqb Pos.eqb].
  rewrite Vy, Vm, Vd, Vh, Vn, Vs, Vf. reflexivity.
Qed.

End TimestampReadBack.

(** The timestamp can be read back: for every instant the clock can return,
    [generate_timestamp] denotes that instant with what is below the
    millisecond dropped (cut, not rounded); so two instants get the same
    timestamp exactly when they agree to the millisecond. *)
Theorem generate_timestamp_read_back (now later : datetime) :
  datetime_ok now = true -> datetime_ok later = true ->
  read_timestamp (generate_timestamp now) = Some (to_millisecond now)
  /\ microsecond (to_millisecond now) <= microsecond now
  /\ microsecond now < microsecond (to_millisecond now) + 1000
  /\ (generate_timestamp now = generate_timestamp later
      <-> to_millisecond now = to_millisecond later).
Proof.
  intros Hnow Hlater.
  pose proof (read_generate_timestamp now Hnow) as Rn.
  pose proof (read_generate_timestamp later Hlater) as Rl.
  split; [exact Rn |].
  pose proof (N.div_mod (microsecond now) 1000 ltac:(discriminate)) as Hdm.
  pose proof (N.mod_upper_bound (microsecond now) 1000 ltac:(discriminate)) as Hub.
  cbn [to_millisecond microsecond].
  split; [| split; [| split]].
  - revert Hdm Hub. generalize (microsecond now / 1000) (microsecond now mod 1000).
    intros q r Hdm Hub. lia.
  - revert Hdm Hub. generalize (microsecond now / 1000) (microsecond now mod 1000).
    intros q r Hdm Hub. lia.
  - intros Heq. rewrite Heq, Rl in Rn. congruence.
  - intros Heq. rewrite !generate_timestamp_fields.
    unfold to_millisecond in Heq. inversion Heq as [[Ey Em Ed Eh En Es Ef]].
    assert (Ems : microsecond now / 1000 = microsecond later / 1000).
    { revert Ef. generalize (microsecond now / 1000) (microsecond later / 1000).
      intros q q' Ef. lia. }
    rewrite Ey, Em, Ed, Eh, En, Es, Ems. reflexivity.
Qed.

Lemma generate_timestamp_read_back_witness :
  datetime_ok (Datetime 2024 2 29 23 59 59 999999) = true
  /\ datetime_ok (Datetime 2024 2 29 23 59 59 999000) = true
  /\ read_timestamp (generate_timestamp (Datetime 2024 2 29 23 59 59 999999))
     = Some (Datetime 2024 2 29 23 59 59 999000).
Proof.
  split; [reflexivity |]. split; [reflexivity |].
  exact (proj1 (generate_timestamp_read_back (Datetime 2024 2 29 23 59 59 999999)
                  (Datetime 2024 2 29 23 59 59 999000) eq_refl eq_refl)).
Defined.

(** ** More on configuration *)

Section StripShape.

Lemma lstrip_split (s : str) :
  exists pre, s = pre ++ lstrip s /\ forallb is_space pre = true.
Proof.
  induction s as [| a s (pre & IH & Hpre)]; [exists []; split; reflexivity |].
  cbn [lstrip]. destruct (is_space a) eqn:E.
  - exists (a :: pre). cbn [app forallb]. rewrite E, Hpre. split; [f_equal; exact IH | reflexivity].
  - exists []. split; reflexivity.
Qed.

Lemma forallb_rev_true {A : Type} (f : A -> bool) (l : list A) :
  forallb f l = true -> forallb f (rev l) = true.
Proof.
  rewrite !forallb_forall. intros H x Hx. apply H, in_rev. exact Hx.
Qed.

Lemma rstrip_split (s : str) :
  exists suf, s = rstrip s ++ suf /\ forallb is_space suf = true.
Proof.
  unfold rstrip. destruct (lstrip_split (rev s)) as (pre & H & Hpre).
  exists (rev pre). split; [| exact (forallb_rev_true _ _ Hpre)].
  rewrite <- rev_app_distr, <- H, rev_involutive. reflexivity.
Qed.

Lemma lstrip_all_space (s : str) : forallb is_space s = true -> lstrip s = [].
Proof.
  induction s as [| a s IH]; [reflexivity |]. cbn [forallb lstrip].
  intros H. apply andb_prop in H as [Ha Hs]. rewrite Ha. exact (IH Hs).
Qed.

(** [strip] removes a run of white space at each end and nothing else; what
    is left is empty exactly when the text was white space only. *)
Lemma strip_split (s : str) :
  exists pre suf,
    s = pre ++ strip s ++ suf
    /\ forallb is_space pre = true /\ forallb is_space suf = true.
Proof.
  destruct (lstrip_split s) as (pre & Hs & Hpre).
  destruct (rstrip_split (lstrip s)) as (suf & Hl & Hsuf).
  exists pre, suf. unfold strip. rewrite <- Hl. auto.
Qed.

Lemma strip_empty_iff (s : str) : strip s = [] <-> forallb is_space s = true.
Proof.
  split.
  - intros H. destruct (strip_split s) as (pre & suf & Hs & Hpre & Hsuf).
    rewrite H in Hs. rewrite Hs, !forallb_app, Hpre, Hsuf. reflexivity.
  - intros H. unfold strip. rewrite (lstrip_all_space s H). reflexivity.
Qed.

(** A text that is not empty and has no white space at either end is left
    as it is. *)
Lemma strip_trimmed_id (v : str) : trimmed v = true -> strip v = v.
Proof.
  unfold trimmed, strip. destruct v as [| a v]; [discriminate |].
  cbn [head]. destruct (last (a :: v)) as [b |] eqn:Hlast; [| discriminate].
  intros H. apply andb_prop in H as [Ha Hb]. apply negb_true_iff in Ha, Hb.
  cbn [lstrip]. rewrite Ha. unfold rstrip.
  destruct (rev (a :: v)) as [| b' r] eqn:Hrev.
  - apply (f_equal (@rev N)) in Hrev. rewrite rev_involutive in Hrev. discriminate.
  - assert (Hb' : b' = b).
    { apply (f_equal (@rev N)) in Hrev. rewrite rev_involutive in Hrev.
      cbn [rev] in Hrev. rewrite Hrev, last_snoc in Hlast. congruence. }
    subst b'. cbn [lstrip]. rewrite Hb. rewrite <- Hrev. apply rev_involutive.
Qed.

End StripShape.

(** What [get_env_variable] returns differs from the variable only by a run
    of white space removed at each end, and is the empty text exactly when
    the variable, though set and not empty, holds white space only. *)
Theorem get_env_variable_strips_ends
    (environ : gmap str str) (name v : str) (evs : list event) :
  get_env_variable environ name = (evs, Return v) ->
  exists raw pre suf,
    environ !! name = Some raw /\ raw <> []
    /\ raw = pre ++ v ++ suf
    /\ forallb is_space pre = true /\ forallb is_space suf = true
    /\ (v = [] <-> forallb is_space raw = true).
Proof.
  intros H.
  destruct (get_env_variable_returns _ _ _ _ H) as (_ & _ & raw & Hraw & Hne & ->).
  destruct (strip_split raw) as (pre & suf & Hs & Hpre & Hsuf).
  exists raw, pre, suf. repeat split; auto; apply strip_empty_iff.
Qed.

Lemma get_env_variable_strips_ends_witness :
  let environ := <[lit "B12_EMAIL" := 9 :: lit " ada@example.com" ++ [13; 10]]>
                   sample_environ in
  get_env_variable environ (lit "B12_EMAIL") = ([], Return (lit "ada@example.com"))
  /\ exists raw pre suf,
       environ !! lit "B12_EMAIL" = Some raw
       /\ raw = pre ++ lit "ada@example.com" ++ suf.
Proof.
  cbv zeta.
  assert (H : get_env_variable
                (<[lit "B12_EMAIL" := 9 :: lit " ada@example.com" ++ [13; 10]]>
                   sample_environ) (lit "B12_EMAIL")
              = ([], Return (lit "ada@example.com"))) by (vm_compute; reflexivity).
  split; [exact H |].
  destruct (get_env_variable_strips_ends _ _ _ _ H)
    as (raw & pre & suf & Hraw & _ & Hs & _).
  exists raw, pre, suf. split; [exact Hraw | exact Hs].
Defined.

(** Setting a variable to a text that is not empty and has no white space at
    either end makes [get_env_variable] return that very text for it, and
    changes nothing for any other variable. *)
Theorem get_env_variable_after_set (environ : gmap str str) (name v : str) :
  trimmed v = true ->
  get_env_variable (<[name := v]> environ) name = ([], Return v)
  /\ (forall other, other <> name ->
        get_env_variable (<[name := v]> environ) other
        = get_env_variable environ other)
  /\ get_env_variable (delete name environ) name
     = ([Stderr (not_set_message name ++ [ch_newline])], Exit 1).
Proof.
  intros Hv. split; [| split].
  - unfold get_env_variable. rewrite lookup_insert_eq.
    destruct v as [| a v]; [discriminate |]. cbn [falsy].
    change (default [] (Some (a :: v))) with (a :: v).
    rewrite (strip_trimmed_id _ Hv). reflexivity.
  - intros other Hne. unfold get_env_variable.
    rewrite lookup_insert_ne by congruence. reflexivity.
  - unfold get_env_variable. rewrite lookup_delete_eq. reflexivity.
Qed.

Lemma get_env_variable_after_set_witness :
  trimmed (lit "Grace Hopper") = true
  /\ get_env_variable (<[lit "B12_NAME" := lit "Grace Hopper"]> sample_environ)
       (lit "B12_NAME") = ([], Return (lit "Grace Hopper")).
Proof.
  split; [reflexivity |].
  exact (proj1 (get_env_variable_after_set sample_environ (lit "B12_NAME")
                  (lit "Grace Hopper") eq_refl)).
Defined.

(** ** More on the signature *)

Lemma utf8_encode_first_unencodable (s : str) :
  match first_unencodable s with
  | Some c => utf8_encode s = inl (UnicodeEncodeError c)
  | None => exists bs, utf8_encode s = inr bs
  end.
Proof.
  unfold first_unencodable.
  induction s as [| a s IH]; cbn [find utf8_encode]; [eauto |].
  destruct (scalar a) eqn:Ea; cbn [negb].
  - destruct (utf8_char_scalar a Ea) as [bs ->].
    destruct (find _ s) as [c |].
    + rewrite IH. reflexivity.
    + destruct IH as [rest ->]. eauto.
  - destruct (utf8_char a) as [e | bs] eqn:Eu.
    + destruct (utf8_char_error a e Eu) as [-> _]. reflexivity.
    + exfalso. clear IH. revert Eu. unfold utf8_char, scalar in *.
      destruct (N.ltb_spec a 128), (N.ltb_spec a 2048), (N.ltb_spec a 65536),
        (N.ltb_spec a 1114112), (N.leb_spec 55296 a), (N.leb_spec a 57343),
        (N.ltb_spec a 55296), (N.ltb_spec 57343 a);
        cbn [andb orb] in *; try discriminate; try lia.
Qed.

(** [compute_signature] fails exactly when one of its texts holds a code
    point without UTF-8 encoding (a lone surrogate); the error names the
    first such code point of the payload if there is one, whatever the
    secret holds, and otherwise the first one of the secret.  Without any,
    it returns a tag of 64 characters. *)
Theorem compute_signature_first_unencodable (payload secret : str) :
  match first_unencodable payload, first_unencodable secret with
  | Some c, _ => compute_signature payload secret = Raise (UnicodeEncodeError c)
  | None, Some c => compute_signature payload secret = Raise (UnicodeEncodeError c)
  | None, None =>
      exists tag, compute_signature payload secret = Return tag
                  /\ length tag = 64%nat
  end.
Proof.
  pose proof (utf8_encode_first_unencodable payload) as Hp.
  pose proof (utf8_encode_first_unencodable secret) as Hs.
  unfold compute_signature.
  destruct (first_unencodable payload) as [c |].
  - rewrite Hp. reflexivity.
  - destruct Hp as [msg ->]. destruct (first_unencodable secret) as [c |].
    + rewrite Hs. reflexivity.
    + destruct Hs as [key ->]. eexists. split; [reflexivity |].
      apply hmac_hexdigest_shape.
Qed.

Example compute_signature_payload_error_first :
  compute_signature [0x61; 0xDC80; 0xD800] [0xDFFF]
  = Raise (UnicodeEncodeError 0xDC80)
  /\ compute_signature (lit "{}") [0x73; 0xDFFF] = Raise (UnicodeEncodeError 0xDFFF).
Proof. vm_compute. split; reflexivity. Qed.

Lemma compute_signature_outcome (payload secret : str) :
  (exists tag, compute_signature payload secret = Return tag)
  \/ (exists c, compute_signature payload secret = Raise (UnicodeEncodeError c)).
Proof.
  pose proof (utf8_encode_first_unencodable payload) as Hp.
  pose proof (utf8_encode_first_unencodable secret) as Hs.
  unfold compute_signature.
  destruct (first_unencodable payload) as [c |]; [rewrite Hp; eauto |].
  destruct Hp as [msg ->].
  destruct (first_unencodable secret) as [c |]; [rewrite Hs; eauto |].
  destruct Hs as [key ->]. eauto.
Qed.

Lemma encodable_app (a b : str) : encodable (a ++ b) = encodable a && encodable b.
Proof. apply forallb_app. Qed.

Lemma encodable_escape_char (c : N) : encodable (Json.escape_char c) = scalar c.
Proof.
  unfold Json.escape_char.
  repeat match goal with
         | |- context [if ?x =? ?y then _ else _] =>
             destruct (N.eqb_spec x y) as [-> | ?]; [reflexivity |]
         end.
  destruct (N.ltb_spec c 32) as [Hc | Hc].
  - assert (Hd : forall x, scalar (hex_digit (x mod 16)) = true).
    { intros x. pose proof (N.mod_upper_bound x 16 ltac:(discriminate)) as Hx.
      revert Hx. generalize (x mod 16). intros d Hd.
      unfold scalar, hex_digit. apply orb_true_intro. left. apply N.ltb_lt.
      destruct (d <? 10); lia. }
    unfold fmt_04x, encodable. cbn [forallb]. rewrite !Hd.
    unfold scalar. destruct (N.ltb_spec c 55296); [reflexivity | lia].
  - unfold encodable. cbn [forallb]. apply andb_true_r.
Qed.

Lemma encodable_encode_basestring (v : str) :
  encodable (Json.encode_basestring v) = encodable v.
Proof.
  unfold Json.encode_basestring.
  change (encodable (ch_quote :: flat_map Json.escape_char v ++ [ch_quote]))
    with (encodable (flat_map Json.escape_char v ++ [ch_quote])).
  rewrite encodable_app. change (encodable [ch_quote]) with true. rewrite andb_true_r.
  induction v as [| c v IH]; [reflexivity |].
  cbn [flat_map]. rewrite encodable_app, encodable_escape_char, IH. reflexivity.
Qed.

Lemma encodable_fmt_0d (w : nat) (n : N) : encodable (fmt_0d w n) = true.
Proof.
  pose proof (fmt_0d_digits w n) as H. rewrite forallb_forall in H.
  apply forallb_forall. intros c Hc. specialize (H c Hc).
  unfold is_digit in H. apply andb_prop in H as [_ H]. apply N.leb_le in H.
  unfold scalar. apply orb_true_intro. left. apply N.ltb_lt. lia.
Qed.

Lemma encodable_generate_timestamp (now : datetime) :
  encodable (generate_timestamp now) = true.
Proof.
  rewrite generate_timestamp_fields. rewrite ?encodable_app, ?encodable_fmt_0d.
  reflexivity.
Qed.

(** The payload text has a UTF-8 encoding exactly when every value has:
    escaping neither hides nor introduces a lone surrogate. *)
Lemma encodable_create_payload
    (timestamp name email resume_link repository_link action_run_link : str) :
  encodable
    (create_payload timestamp name email resume_link repository_link action_run_link)
  = encodable action_run_link && encodable email && encodable name
    && encodable repository_link && encodable resume_link && encodable timestamp.
Proof.
  rewrite create_payload_layout.
  rewrite ?encodable_app, ?encodable_encode_basestring.
  change (encodable (lit "{")) with true. change (encodable (lit "}")) with true.
  change (encodable (lit ":")) with true. change (encodable (lit ",")) with true.
  change (encodable (lit "action_run_link")) with true.
  change (encodable (lit "email")) with true.
  change (encodable (lit "name")) with true.
  change (encodable (lit "repository_link")) with true.
  change (encodable (lit "resume_link")) with true.
  change (encodable (lit "timestamp")) with true.
  cbn [andb]. rewrite ?andb_true_r.
  destruct (encodable action_run_link), (encodable email), (encodable name),
    (encodable repository_link), (encodable resume_link), (encodable timestamp);
    reflexivity.
Qed.

Lemma encodable_first_unencodable (s : str) :
  encodable s = true <-> first_unencodable s = None.
Proof.
  unfold encodable, first_unencodable.
  induction s as [| c s IH]; cbn [forallb find]; [tauto |].
  destruct (scalar c); cbn [negb andb]; [exact IH |].
  split; discriminate.
Qed.

Lemma compute_signature_raises_iff (payload secret : str) :
  (exists c, compute_signature payload secret = Raise (UnicodeEncodeError c))
  <-> encodable payload && encodable secret = false.
Proof.
  pose proof (utf8_encode_first_unencodable payload) as Hp.
  pose proof (utf8_encode_first_unencodable secret) as Hs.
  pose proof (encodable_first_unencodable payload) as Ep.
  pose proof (encodable_first_unencodable secret) as Es.
  unfold compute_signature.
  destruct (first_unencodable payload) as [c |].
  - rewrite Hp. destruct (encodable payload); [destruct Ep as [Ep _]; discriminate (Ep eq_refl) |].
    split; [reflexivity | eauto].
  - destruct Hp as [msg ->]. rewrite (proj2 Ep eq_refl). cbn [andb].
    destruct (first_unencodable secret) as [c |].
    + rewrite Hs. destruct (encodable secret); [destruct Es as [Es _]; discriminate (Es eq_refl) |].
      split; [reflexivity | eauto].
    + destruct Hs as [key ->]. rewrite (proj2 Es eq_refl).
      split; [intros [c Hc]; discriminate | discriminate].
Qed.


Lemma compute_signature_return_shape (payload secret tag : str) :
  compute_signature payload secret = Return tag ->
  length tag = 64%nat /\ forallb is_lower_hex tag = true.
Proof.
  unfold compute_signature.
  destruct (utf8_encode payload) as [e | msg]; [discriminate |].
  destruct (utf8_encode secret) as [e | key]; [discriminate |].
  intros H. inversion H. apply hmac_hexdigest_shape.
Qed.

(** ** The signature is the HMAC over SHA-256 *)

(** C9, as the code has it.  For every payload and key that have a UTF-8
    encoding (texts free of lone surrogates), [compute_signature] returns
    the hexadecimal rendering of the whole HMAC of RFC 2104 over SHA-256,
    keyed and fed with the encodings: 64 characters, all of them digits or
    the letters [a] to [f]; as a function of its two arguments it gives
    equal tags for equal pairs.  For a payload or a key that holds a lone
    surrogate it returns no tag: it raises the [UnicodeEncodeError] of such
    a code point.  The hash and the construction are the standard ones: they
    give the digests of FIPS 180 for [abc] and for the message of two
    blocks, and the tags of RFC 4231 for its test cases 1, 2 and 6 (a key
    shorter than a block, the key [Jefe], a key longer than a block); the
    tag of the sample payload under the key [s3cr3t] is the one spelled
    out. *)
Theorem compute_signature_hmac_sha256 (payload secret : str) :
  (encodable payload = true -> encodable secret = true ->
   exists key msg,
     utf8_encode secret = inr key /\ utf8_encode payload = inr msg
     /\ compute_signature payload secret = Return (hex_of_bytes (Hmac.rfc2104 key msg))
     /\ length (Hmac.rfc2104 key msg) = 32%nat
     /\ length (hex_of_bytes (Hmac.rfc2104 key msg)) = 64%nat
     /\ forallb is_lower_hex (hex_of_bytes (Hmac.rfc2104 key msg)) = true
     /\ (forall tag tag', compute_signature payload secret = Return tag ->
                          compute_signature payload secret = Return tag' -> tag = tag'))
  /\ (encodable payload && encodable secret = false ->
      exists c, compute_signature payload secret = Raise (UnicodeEncodeError c)
                /\ c ∈ payload ++ secret /\ scalar c = false)
  /\ hex_of_bytes (Sha256.digest (lit "abc"))
     = lit "ba7816bf8f01cfea414140de5dae2223b00361a396177a9cb410ff61f20015ad"
  /\ hex_of_bytes (Sha256.digest
        (lit "abcdbcdecdefdefgefghfghighijhijkijkljklmklmnlmnomnopnopq"))
     = lit "248d6a61d20638b8e5c026930c3e6039a33ce45964ff2167f6ecedd419db06c1"
  /\ hex_of_bytes (Hmac.rfc2104 (repeat 0x0B 20) (lit "Hi There"))
     = lit "b0344c61d8db38535ca8afceaf0bf12b881dc200c9833da726e9376c2e32cff7"
  /\ compute_signature (lit "what do ya want for nothing?") (lit "Jefe")
     = Return (lit "5bdcc146bf60754e6a042426089575c75a003f089d2739839dec58b964ec3843")
  /\ hex_of_bytes (Hmac.rfc2104 (repeat 0xAA 131)
        (lit "Test Using Larger Than Block-Size Key - Hash Key First"))
     = lit "60e431591ee0b67f0d8a26aacbf5b77f8e0bc6213728c5140546040f0ee37f54"
  /\ compute_signature sample_payload (lit "s3cr3t")
     = Return (lit "0523e00097b06b20fd21d5f96c9d1d4d59d41476a9f718e81d8e76e5ee25f207").
Proof.
  split; [| split].
  - intros Hp Hs.
    destruct (utf8_encode_encodable payload Hp) as [msg Hmsg].
    destruct (utf8_encode_encodable secret Hs) as [key Hkey].
    exists key, msg. split; [exact Hkey |]. split; [exact Hmsg |].
    pose proof (hmac_hexdigest_shape key msg) as [Hlen Hhex].
    unfold Hmac.hexdigest in Hlen, Hhex. rewrite hmac_digest_rfc2104 in Hlen, Hhex.
    unfold compute_signature. rewrite Hmsg, Hkey. unfold Hmac.hexdigest.
    rewrite hmac_digest_rfc2104.
    split; [reflexivity |]. split; [reflexivity |].
    split; [exact Hlen |]. split; [exact Hhex |].
    intros tag tag' H1 H2. congruence.
  - intros Hbad. apply compute_signature_raises_iff in Hbad as [c Hc].
    exists c. split; [exact Hc |]. revert Hc. unfold compute_signature.
    destruct (utf8_encode payload) as [e | msg] eqn:Hm.
    + intros H. inversion H. subst e.
      destruct (utf8_encode_error payload _ Hm) as (c' & Hc' & Hin & Hs).
      inversion Hc'. subst c'. split; [apply elem_of_app; left; exact Hin | exact Hs].
    + destruct (utf8_encode secret) as [e | key] eqn:Hk; [| discriminate].
      intros H. inversion H. subst e.
      destruct (utf8_encode_error secret _ Hk) as (c' & Hc' & Hin & Hs).
      inversion Hc'. subst c'. split; [apply elem_of_app; right; exact Hin | exact Hs].
  - vm_compute. repeat split; reflexivity.
Qed.

(** C9, as stated, fails: not every payload and key gets a tag.  A key, or
    a payload, that holds a lone surrogate has no UTF-8 encoding, and
    [compute_signature] ends with the error of [.encode('utf-8')]. *)
Lemma compute_signature_lone_surrogate :
  compute_signature (lit "{}") [0x6B; 0xDC80] = Raise (UnicodeEncodeError 0xDC80)
  /\ compute_signature [0x7B; 0xD800; 0x7D] (lit "s3cr3t")
     = Raise (UnicodeEncodeError 0xD800).
Proof. vm_compute. split; reflexivity. Qed.

(** * The run of [main] *)

(** ** Stepping through a run *)

Lemma run_from_start {A : Type} (m : prog A) : m = run_from [] m.
Proof. destruct m. reflexivity. Qed.

Lemma run_from_return {A B : Type} (pre evs : list event) (m : prog A)
                      (k : A -> prog B) (a : A) :
  m = (evs, Return a) -> run_from pre (m ≫= k) = run_from (pre ++ evs) (k a).
Proof.
  intros ->. unfold run_from, mbind, prog_bind. cbn [fst snd].
  rewrite app_assoc. reflexivity.
Qed.

Lemma run_from_exit {A B : Type} (pre evs : list event) (m : prog A)
                    (k : A -> prog B) (code : N) :
  m = (evs, Exit code) -> run_from pre (m ≫= k) = (pre ++ evs, Exit code).
Proof. intros ->. reflexivity. Qed.

Lemma run_from_raise {A B : Type} (pre evs : list event) (m : prog A)
                     (k : A -> prog B) (e : exn) :
  m = (evs, Raise e) -> run_from pre (m ≫= k) = (pre ++ evs, Raise e).
Proof. intros ->. reflexivity. Qed.

Lemma run_from_last {A : Type} (pre evs : list event) (m : prog A) (o : outcome A) :
  m = (evs, o) -> run_from pre m = (pre ++ evs, o).
Proof. intros ->. reflexivity. Qed.

(** Takes the run in [Hrun] one statement further, given how that statement
    ran. *)
Ltac run_with Hrun H :=
  first [ rewrite (run_from_return _ _ _ _ _ H) in Hrun
        | rewrite (run_from_exit _ _ _ _ _ H) in Hrun
        | rewrite (run_from_raise _ _ _ _ _ H) in Hrun
        | rewrite (run_from_last _ _ _ _ H) in Hrun ].

(** ** Printing *)

Lemma print_ok (out : console) (s : str) :
  first_rejected out s = None -> out ch_newline = true ->
  print out s = ([Stdout (s ++ [ch_newline])], Return tt).
Proof. intros Hs Hnl. unfold print. rewrite Hs, Hnl. reflexivity. Qed.

Lemma print_rejected (out : console) (s : str) (c : N) :
  first_rejected out s = Some c ->
  print out s = ([], Raise (UnicodeEncodeError c)).
Proof. intros Hs. unfold print. rewrite Hs. reflexivity. Qed.

Lemma print_no_newline (out : console) (s : str) :
  first_rejected out s = None -> out ch_newline = false ->
  print out s = ([Stdout s], Raise (UnicodeEncodeError ch_newline)).
Proof. intros Hs Hnl. unfold print. rewrite Hs, Hnl. reflexivity. Qed.

Lemma first_rejected_none (out : console) (s : str) :
  first_rejected out s = None <-> forallb out s = true.
Proof.
  unfold first_rejected. induction s as [| c s IH]; cbn [find forallb]; [tauto |].
  destruct (out c); cbn [negb andb]; [exact IH |]. split; discriminate.
Qed.

Lemma first_rejected_app (out : console) (a b : str) :
  first_rejected out (a ++ b)
  = match first_rejected out a with
    | Some c => Some c
    | None => first_rejected out b
    end.
Proof.
  unfold first_rejected. induction a as [| c a IH]; cbn [find app]; [reflexivity |].
  destruct (out c); cbn [negb]; [exact IH | reflexivity].
Qed.

Lemma first_rejected_accept_all (s : str) : first_rejected accept_all s = None.
Proof. apply first_rejected_none. induction s; [reflexivity | assumption]. Qed.

Lemma writes_ascii_forallb (out : console) (s : str) :
  writes_ascii out -> forallb is_ascii s = true -> forallb out s = true.
Proof.
  intros Hout H. rewrite forallb_forall in H. apply forallb_forall.
  intros c Hc. apply Hout. apply N.ltb_lt. exact (H c Hc).
Qed.

Lemma writes_scalars_forallb (out : console) (s : str) :
  writes_scalars out -> encodable s = true -> forallb out s = true.
Proof.
  intros Hout H. unfold encodable in H. rewrite forallb_forall in H.
  apply forallb_forall. intros c Hc. apply Hout. exact (H c Hc).
Qed.

Lemma writes_scalars_ascii (out : console) : writes_scalars out -> writes_ascii out.
Proof.
  intros H c Hc. apply H. unfold scalar. apply orb_true_intro. left.
  apply N.ltb_lt. lia.
Qed.

Lemma str_of_N_ascii (n : N) : forallb is_ascii (str_of_N n) = true.
Proof.
  assert (H : forallb is_digit (str_of_N n) = true)
    by (apply dec_digits_digits; reflexivity).
  rewrite forallb_forall in H. apply forallb_forall. intros c Hc.
  specialize (H c Hc). unfold is_digit in H. apply andb_prop in H as [_ H].
  apply N.leb_le in H. apply N.ltb_lt. lia.
Qed.

Lemma forallb_take {A : Type} (f : A -> bool) (n : nat) (l : list A) :
  forallb f l = true -> forallb f (take n l) = true.
Proof.
  revert n. induction l as [| a l IH]; intros [| n]; cbn [take forallb]; try reflexivity.
  intros H. apply andb_prop in H as [Ha Hl]. rewrite Ha. exact (IH n Hl).
Qed.

(** The three lines [main] prints first, on a stream that writes ASCII and
    the first four characters of the secret. *)
Section FirstLines.
Variable out : console.
Hypothesis Hout : writes_ascii out.

Lemma out_newline : out ch_newline = true.
Proof. apply Hout. reflexivity. Qed.

Lemma banner_written :
  first_rejected out (lit "=== B12 Application Submission ===" ++ nl) = None.
Proof. apply first_rejected_none, writes_ascii_forallb; [exact Hout | reflexivity]. Qed.

Lemma length_line_written (n : N) :
  first_rejected out (lit "Secret length: " ++ str_of_N n ++ lit " characters") = None.
Proof.
  apply first_rejected_none, writes_ascii_forallb; [exact Hout |].
  rewrite !forallb_app, str_of_N_ascii. reflexivity.
Qed.

Lemma prefix_line (p : str) :
  first_rejected out (lit "Secret starts with: " ++ p ++ lit "...")
  = first_rejected out p.
Proof.
  rewrite !first_rejected_app.
  assert (H1 : first_rejected out (lit "Secret starts with: ") = None)
    by (apply first_rejected_none, writes_ascii_forallb; [exact Hout | reflexivity]).
  assert (H2 : first_rejected out (lit "...") = None)
    by (apply first_rejected_none, writes_ascii_forallb; [exact Hout | reflexivity]).
  rewrite H1, H2. destruct (first_rejected out p); reflexivity.
Qed.

End FirstLines.

(** ** Missing configuration *)

Lemma required_vars_elem (name : str) :
  In name required_vars -> name ∈ required_vars.
Proof. apply list_elem_of_In. Qed.

Lemma falsy_no_secret (environ : gmap str str) (name : str) :
  falsy (environ !! name) = true -> strip (default [] (environ !! name)) = [].
Proof. destruct (environ !! name) as [[| c v] |]; [reflexivity | discriminate | reflexivity]. Qed.

(** Splits on how the statement at the head of the run in [Hrun] ran: a
    [print] or a call of [get_env_variable].  Runs that stop there are left
    to [fin]. *)
Ltac step_print Hrun fin :=
  lazymatch type of Hrun with
  | context [run_from _ (mbind _ (print ?out ?s))] =>
      let c := fresh "c" in
      let Hs := fresh "Hs" in
      destruct (first_rejected out s) as [c |] eqn:Hs;
      [ run_with Hrun (print_rejected out s c Hs); fin
      | lazymatch goal with
        | Hnl : out ch_newline = true |- _ => run_with Hrun (print_ok out s Hs Hnl)
        | _ =>
            let Hnl := fresh "Hnl" in
            destruct (out ch_newline) eqn:Hnl;
            [ run_with Hrun (print_ok out s Hs Hnl)
            | run_with Hrun (print_no_newline out s Hs Hnl); fin ]
        end ]
  end.

Ltac step_env Hrun fin :=
  lazymatch type of Hrun with
  | context [run_from _ (mbind _ (get_env_variable ?environ ?name))] =>
      lazymatch goal with
      | E : falsy (environ !! name) = false |- _ =>
          run_with Hrun (get_env_variable_present environ name E)
      | _ =>
          let E := fresh "E" in
          destruct (falsy (environ !! name)) eqn:E;
          [ run_with Hrun (get_env_variable_missing environ name E); fin
          | run_with Hrun (get_env_variable_present environ name E) ]
      end
  end.

(** With a required variable unset or empty, a run makes no call and does
    not end normally, whatever standard output can write. *)
Lemma main_missing_no_call
    (out : console) (environ : gmap str str) (now : datetime) (net : network)
    (var : str) :
  var ∈ required_vars -> falsy (environ !! var) = true ->
  posted_bodies (main out environ now net).1 = []
  /\ forallb (fun e => negb (is_post e)) (main out environ now net).1 = true
  /\ ((main out environ now net).2 = Exit 1
      \/ exists c, (main out environ now net).2 = Raise (UnicodeEncodeError c)).
Proof.
  intros Hin Hvar.
  remember (main out environ now net) as run eqn:Hrun.
  rewrite (run_from_start (main out environ now net)) in Hrun. unfold main in Hrun.
  step_print Hrun ltac:(subst run; cbn [fst snd]; eauto).
  step_env Hrun ltac:(subst run; cbn [fst snd]; eauto).
  step_print Hrun ltac:(subst run; cbn [fst snd]; eauto).
  step_print Hrun ltac:(subst run; cbn [fst snd]; eauto).
  do 5 (step_env Hrun ltac:(subst run; cbn [fst snd]; eauto)).
  exfalso. unfold required_vars in Hin.
  repeat (apply elem_of_cons in Hin as [-> | Hin]; [congruence |]).
  inversion Hin.
Qed.

Lemma first_missing_some (environ : gmap str str) (var : str) :
  var ∈ required_vars -> falsy (environ !! var) = true ->
  exists missing, first_missing environ = Some missing.
Proof.
  intros Hin Hvar. unfold first_missing.
  destruct (find _ required_vars) as [missing |] eqn:E; [eauto |].
  apply list_elem_of_In in Hin.
  pose proof (find_none _ _ E var Hin) as H. cbv beta in H. congruence.
Qed.

(** Takes the run in [Hrun] past a [print] whose text the stream writes, as
    [tac] shows. *)
Ltac print_by Hrun Hout tac :=
  lazymatch type of Hrun with
  | context [run_from _ (mbind _ (print ?out ?s))] =>
      let H := fresh "H" in
      assert (H : first_rejected out s = None) by tac;
      run_with Hrun (print_ok out s H (out_newline out Hout)); clear H
  | context [run_from _ (print ?out ?s)] =>
      let H := fresh "H" in
      assert (H : first_rejected out s = None) by tac;
      run_with Hrun (print_ok out s H (out_newline out Hout)); clear H
  end.

(** Closes the case of a run that stopped at the variable found missing. *)
Ltac fin_missing Hfm run :=
  repeat match goal with
         | E : falsy (_ !! _) = _ |- _ => first [rewrite E in Hfm | idtac]; clear E
         end;
  inversion Hfm; subst; cbn [fst snd]; repeat split; reflexivity.

(** On a stream that writes ASCII and the first four characters of the
    secret, the run reports the first variable found missing and exits. *)
Lemma main_missing_reported
    (out : console) (environ : gmap str str) (now : datetime) (net : network)
    (missing : str) :
  writes_ascii out ->
  forallb out (take 4 (strip (default [] (environ !! lit "B12_SECRET")))) = true ->
  first_missing environ = Some missing ->
  (main out environ now net).2 = Exit 1
  /\ last (main out environ now net).1
     = Some (Stderr (lit "Error: " ++ missing
                     ++ lit " environment variable is not set" ++ [ch_newline]))
  /\ stderr_texts (main out environ now net).1
     = [lit "Error: " ++ missing ++ lit " environment variable is not set"
        ++ [ch_newline]].
Proof.
  intros Hout Hpre Hfm.
  unfold first_missing, required_vars in Hfm. cbn [find] in Hfm.
  remember (main out environ now net) as run eqn:Hrun.
  rewrite (run_from_start (main out environ now net)) in Hrun. unfold main in Hrun.
  print_by Hrun Hout ltac:(apply banner_written; exact Hout).
  step_env Hrun ltac:(fin_missing Hfm run).
  print_by Hrun Hout ltac:(apply length_line_written; exact Hout).
  apply first_rejected_none in Hpre. rewrite <- (prefix_line out Hout) in Hpre.
  print_by Hrun Hout ltac:(exact Hpre).
  clear Hpre.
  do 5 (step_env Hrun ltac:(fin_missing Hfm run)).
  exfalso.
  repeat match goal with
         | E : falsy (_ !! _) = _ |- _ => first [rewrite E in Hfm | idtac]; clear E
         end.
  discriminate.
Qed.

(** When standard output cannot write one of the first four characters of
    the secret, the run ends at the line that shows them. *)
Lemma main_prefix_rejected
    (out : console) (environ : gmap str str) (now : datetime) (net : network)
    (c : N) :
  writes_ascii out ->
  first_rejected out (take 4 (strip (default [] (environ !! lit "B12_SECRET"))))
  = Some c ->
  main out environ now net
  = ([ Stdout (lit "=== B12 Application Submission ===" ++ nl ++ nl);
       Stdout (lit "Secret length: "
               ++ str_of_N (N.of_nat (length (strip (default []
                                        (environ !! lit "B12_SECRET")))))
               ++ lit " characters" ++ nl) ],
     Raise (UnicodeEncodeError c)).
Proof.
  intros Hout Hc.
  assert (E : falsy (environ !! lit "B12_SECRET") = false).
  { destruct (falsy (environ !! lit "B12_SECRET")) eqn:E; [| reflexivity].
    rewrite (falsy_no_secret _ _ E) in Hc. discriminate. }
  remember (main out environ now net) as run eqn:Hrun.
  rewrite (run_from_start (main out environ now net)) in Hrun. unfold main in Hrun.
  print_by Hrun Hout ltac:(apply banner_written; exact Hout).
  step_env Hrun idtac.
  print_by Hrun Hout ltac:(apply length_line_written; exact Hout).
  rewrite <- (prefix_line out Hout) in Hc.
  run_with Hrun (print_rejected out _ c Hc).
  subst run. cbn [app]. unfold nl. rewrite <- !app_assoc. reflexivity.
Qed.

(** C5, as the code has it: with one of the six required variables unset or
    empty, a run makes no call of [requests.post] and does not end normally:
    it exits with status 1 or ends with a [UnicodeEncodeError].  When
    standard output can write ASCII and the first four characters of the
    secret, the run exits with status 1 after writing to standard error, as
    the last thing it does and the only text it writes there, the line
    [Error: NAME environment variable is not set] for the first variable, in
    reading order, that is unset or empty.  When standard output cannot
    write one of the first four characters of the secret, the run ends with
    the [UnicodeEncodeError] of that character and writes nothing to
    standard error. *)
Theorem main_missing_configuration
    (out : console) (environ : gmap str str) (now : datetime) (net : network)
    (var : str) :
  var ∈ required_vars -> falsy (environ !! var) = true ->
  let run := main out environ now net in
  let secret := strip (default [] (environ !! lit "B12_SECRET")) in
  posted_bodies run.1 = []
  /\ forallb (fun e => negb (is_post e)) run.1 = true
  /\ (run.2 = Exit 1 \/ exists c, run.2 = Raise (UnicodeEncodeError c))
  /\ (writes_ascii out -> forallb out (take 4 secret) = true ->
      exists missing,
        first_missing environ = Some missing
        /\ run.2 = Exit 1
        /\ last run.1
           = Some (Stderr (lit "Error: " ++ missing
                           ++ lit " environment variable is not set" ++ [ch_newline]))
        /\ stderr_texts run.1
           = [lit "Error: " ++ missing ++ lit " environment variable is not set"
              ++ [ch_newline]])
  /\ (writes_ascii out ->
      forall c, first_rejected out (take 4 secret) = Some c ->
        run.2 = Raise (UnicodeEncodeError c) /\ stderr_texts run.1 = []).
Proof.
  intros Hin Hvar run secret. subst run secret.
  destruct (main_missing_no_call out environ now net var Hin Hvar) as (H1 & H2 & H3).
  split; [exact H1 |]. split; [exact H2 |]. split; [exact H3 |]. split.
  - intros Hout Hpre.
    destruct (first_missing_some environ var Hin Hvar) as [missing Hfm].
    exists missing. split; [exact Hfm |].
    exact (main_missing_reported out environ now net missing Hout Hpre Hfm).
  - intros Hout c Hc.
    rewrite (main_prefix_rejected out environ now net c Hout Hc).
    split; reflexivity.
Qed.

Lemma main_missing_configuration_witness :
  let environ := delete (lit "B12_ACTION_RUN_LINK")
                   (delete (lit "B12_EMAIL") sample_environ) in
  lit "B12_ACTION_RUN_LINK" ∈ required_vars
  /\ falsy (environ !! lit "B12_ACTION_RUN_LINK") = true
  /\ (main utf8_strict environ sample_now sample_network).2 = Exit 1
  /\ posted_bodies (main utf8_strict environ sample_now sample_network).1 = []
  /\ stderr_texts (main utf8_strict environ sample_now sample_network).1
     = [lit "Error: B12_EMAIL environment variable is not set" ++ [ch_newline]].
Proof.
  cbv zeta.
  assert (Hin : lit "B12_ACTION_RUN_LINK" ∈ required_vars)
    by (apply required_vars_elem; cbn; tauto).
  assert (Hf : falsy (delete (lit "B12_ACTION_RUN_LINK")
                        (delete (lit "B12_EMAIL") sample_environ)
                      !! lit "B12_ACTION_RUN_LINK") = true)
    by (vm_compute; reflexivity).
  split; [exact Hin |]. split; [exact Hf |].
  destruct (main_missing_configuration utf8_strict _ sample_now sample_network _ Hin Hf)
    as (Hposts & _ & _ & Hreport & _).
  destruct Hreport as (missing & Hfm & Hexit & _ & Herr).
  - intros c Hc. unfold utf8_strict, scalar.
    apply orb_true_intro. left. apply N.ltb_lt. lia.
  - vm_compute. reflexivity.
  - assert (Hm : missing = lit "B12_EMAIL").
    { vm_compute in Hfm. inversion Hfm. reflexivity. }
    subst missing. split; [exact Hexit |]. split; [exact Hposts | exact Herr].
Defined.

(** C5, as stated, fails: [B12_NAME] is unset, but the secret holds, among
    its first four characters, a lone surrogate (as [os.environ] gives for
    an undecodable octet), which a strict UTF-8 standard output cannot
    write.  The run ends with that error at the line showing the first four
    characters, before [B12_NAME] is read: nothing is written to standard
    error and the process does not exit by itself. *)
Lemma main_missing_name_unreported :
  let environ :=
    <[lit "B12_SECRET" := [0x73; 0xDC80; 0x63; 0x72; 0x33; 0x74]]>
      (delete (lit "B12_NAME") sample_environ) in
  falsy (environ !! lit "B12_NAME") = true
  /\ main utf8_strict environ sample_now sample_network
     = ([ Stdout (lit "=== B12 Application Submission ===" ++ nl ++ nl);
          Stdout (lit "Secret length: 6 characters" ++ nl) ],
        Raise (UnicodeEncodeError 0xDC80))
  /\ stderr_texts (main utf8_strict environ sample_now sample_network).1 = [].
Proof. vm_compute. repeat split; reflexivity. Qed.

(** ** What a run shows of the secret *)

Lemma bind_cong {A B : Type} (m : prog A) (k1 k2 : A -> prog B) :
  (forall a, m.2 = Return a -> k1 a = k2 a) -> m ≫= k1 = m ≫= k2.
Proof.
  intros H. unfold mbind, prog_bind.
  destruct m as [evs [a | code | e]]; cbn [fst snd] in *;
    [rewrite (H a eq_refl) | |]; reflexivity.
Qed.

Lemma take_bind_cong {A B : Type} (n : nat) (m : prog A) (k1 k2 : A -> prog B) :
  (forall a, m.2 = Return a ->
     take (n - length m.1) (k1 a).1 = take (n - length m.1) (k2 a).1) ->
  take n (m ≫= k1).1 = take n (m ≫= k2).1.
Proof.
  intros H. unfold mbind, prog_bind.
  destruct m as [evs [a | code | e]]; cbn [fst snd] in *; [| reflexivity ..].
  rewrite !take_app, (H a eq_refl). reflexivity.
Qed.

Lemma bind_nil_return {A B : Type} (a : A) (k : A -> prog B) :
  ([], Return a) ≫= k = k a.
Proof. unfold mbind, prog_bind. cbn [fst snd app]. destruct (k a). reflexivity. Qed.

Lemma print_returns (out : console) (s : str) (a : unit) :
  (print out s).2 = Return a -> (print out s).1 = [Stdout (s ++ [ch_newline])].
Proof.
  unfold print. destruct (first_rejected out s); [discriminate |].
  destruct (out ch_newline); [reflexivity | discriminate].
Qed.

Lemma get_env_variable_value (environ : gmap str str) (name a : str) :
  (get_env_variable environ name).2 = Return a ->
  (get_env_variable environ name).1 = []
  /\ a = strip (default [] (environ !! name)).
Proof.
  unfold get_env_variable. destruct (falsy (environ !! name)); [discriminate |].
  cbn [fst snd mret prog_ret]. intros H. inversion H. split; reflexivity.
Qed.

Lemma get_env_variable_agree (environ1 environ2 : gmap str str) (name : str) :
  environ1 !! name = environ2 !! name ->
  get_env_variable environ1 name = get_env_variable environ2 name.
Proof. intros H. unfold get_env_variable. rewrite H. reflexivity. Qed.

(** Two runs that begin with the same [print], or with the same reading of
    a variable, compared after it: wholly, and on their first events. *)
Ltac same_statement :=
  lazymatch goal with
  | |- take ?n (mbind _ (print ?out ?s)).1 = _ =>
      let a := fresh "a" in
      let Hb := fresh "Hb" in
      apply (take_bind_cong n); intros a Hb;
      rewrite (print_returns out s a Hb); cbn [length Nat.sub]; cbv beta
  | |- take ?n (mbind _ (get_env_variable ?environ ?name)).1 = _ =>
      let a := fresh "a" in
      let Hb := fresh "Hb" in
      apply (take_bind_cong n); intros a Hb;
      destruct (get_env_variable_value environ name a Hb) as [-> ->];
      cbn [length Nat.sub]; cbv beta
  | |- mbind _ (get_env_variable ?environ ?name) = _ =>
      let a := fresh "a" in
      let Hb := fresh "Hb" in
      apply bind_cong; intros a Hb;
      destruct (get_env_variable_value environ name a Hb) as [_ ->]; cbv beta
  | |- mbind _ (print _ _) = _ =>
      let a := fresh "a" in
      let Hb := fresh "Hb" in
      apply bind_cong; intros a Hb; cbv beta
  end.




Example main_same_secret_same_run :
  main utf8_strict (<[lit "B12_SECRET" := lit " s3cr3t"]> sample_environ)
    sample_now sample_network
  = main utf8_strict (<[lit "B12_SECRET" := lit "s3cr3t  "]> sample_environ)
      sample_now sample_network.
Proof. vm_compute. reflexivity. Qed.

(** ** Blank values *)

(** C4, the code at the failing input: a variable set to a single space
    passes the emptiness test and is returned as the empty text, which
    [main] then serialises as the value of [name] and passes to
    [requests.post], whether standard output is strict UTF-8 or writes
    everything. *)
Theorem get_env_variable_blank_value :
  let environ := <[lit "B12_NAME" := lit " "]> sample_environ in
  get_env_variable environ (lit "B12_NAME") = ([], Return [])
  /\ posted_bodies (main accept_all environ sample_now sample_network).1
     = [jlit "{'action_run_link':'https://x/run/1','email':'ada@example.com','name':'','repository_link':'https://x/repo','resume_link':'https://x/r.pdf','timestamp':'2024-01-01T00:00:00.000Z'}"]
  /\ posted_bodies (main utf8_strict environ sample_now sample_network).1
     = [jlit "{'action_run_link':'https://x/run/1','email':'ada@example.com','name':'','repository_link':'https://x/repo','resume_link':'https://x/r.pdf','timestamp':'2024-01-01T00:00:00.000Z'}"].
Proof. vm_compute. repeat split; reflexivity. Qed.

(** ** Signing and submitting *)

Lemma http_error_msg_none (r : response) :
  http_error_msg r = None
  <-> (400 <=? status_code r) && (status_code r <? 600) = false.
Proof.
  unfold http_error_msg.
  destruct (N.leb_spec 400 (status_code r)), (N.ltb_spec (status_code r) 500),
    (N.leb_spec 500 (status_code r)), (N.ltb_spec (status_code r) 600);
    cbn [andb]; split; intros Hx; first [reflexivity | discriminate | exfalso; lia].
Qed.

(** The run of [submit_application], by what the call does. *)
Lemma submit_application_run (net : network) (payload signature : str) :
  let headers :=
    [ (lit "Content-Type", lit "application/json");
      (lit "X-Signature-256", lit "sha256=" ++ signature) ] in
  let call := PostCall submission_url payload headers 30 in
  submit_application net payload signature
  = match utf8_encode payload with
    | inl e => ([call], Raise e)
    | inr _ =>
        match net submission_url payload headers with
        | Replied r =>
            match http_error_msg r with
            | None => ([call], Return r)
            | Some msg =>
                ([call;
                  Stderr (lit "Error submitting application: " ++ msg ++ [ch_newline])],
                 Exit 1)
            end
        | Failed e =>
            ([call;
              Stderr (lit "Error submitting application: " ++ e ++ [ch_newline])],
             Exit 1)
        end
    end.
Proof.
  cbv zeta. unfold submit_application.
  destruct (utf8_encode payload) as [e | bs]; [reflexivity |].
  destruct (net submission_url payload _) as [r | e]; [| reflexivity].
  destruct (http_error_msg r); reflexivity.
Qed.

Lemma compute_signature_return_encodable (payload secret tag : str) :
  compute_signature payload secret = Return tag ->
  encodable payload = true /\ encodable secret = true /\ encodable tag = true.
Proof.
  intros H.
  destruct (encodable payload && encodable secret) eqn:E.
  - apply andb_prop in E as [Hp Hs]. split; [exact Hp |]. split; [exact Hs |].
    destruct (compute_signature_return_shape _ _ _ H) as [_ Hhex].
    rewrite forallb_forall in Hhex. apply forallb_forall. intros c Hc.
    specialize (Hhex c Hc). unfold is_lower_hex in Hhex. unfold scalar.
    apply orb_true_intro. left. apply N.ltb_lt.
    apply orb_prop in Hhex as [Hx | Hx]; apply andb_prop in Hx as [_ Hx];
      apply N.leb_le in Hx; lia.
  - apply compute_signature_raises_iff in E as [c Hc]. congruence.
Qed.

Lemma encodable_str_of_N (n : N) : encodable (str_of_N n) = true.
Proof.
  pose proof (str_of_N_ascii n) as H. rewrite forallb_forall in H.
  apply forallb_forall. intros c Hc. specialize (H c Hc). apply N.ltb_lt in H.
  unfold scalar. apply orb_true_intro. left. apply N.ltb_lt. lia.
Qed.

Lemma writes_ascii_accept_all : writes_ascii accept_all.
Proof. intros c _. reflexivity. Qed.

Lemma writes_scalars_utf8_strict : writes_scalars utf8_strict.
Proof. intros c Hc. exact Hc. Qed.

(** A line made of an ASCII label and a text is written when the text
    is. *)
Lemma labelled_line (out : console) (label t : str) :
  writes_ascii out -> forallb is_ascii label = true ->
  first_rejected out (label ++ t) = first_rejected out t.
Proof.
  intros Hout Hl. rewrite first_rejected_app.
  rewrite (proj2 (first_rejected_none out label) (writes_ascii_forallb _ _ Hout Hl)).
  reflexivity.
Qed.

(** Splits on how signing ran, and on how the call ran. *)
Ltac step_sign Hrun fin :=
  lazymatch type of Hrun with
  | context [run_from _ (mbind _ (lift (compute_signature ?payload ?secret)))] =>
      let tag := fresh "tag" in
      let c := fresh "c" in
      let Hsig := fresh "Hsig" in
      let Hl := fresh "Hl" in
      destruct (compute_signature_outcome payload secret) as [[tag Hsig] | [c Hsig]];
      [ assert (Hl : lift (compute_signature payload secret) = ([], Return tag))
          by (rewrite Hsig; reflexivity);
        run_with Hrun Hl; clear Hl
      | assert (Hl : lift (compute_signature payload secret)
                     = ([], Raise (UnicodeEncodeError c)))
          by (rewrite Hsig; reflexivity);
        run_with Hrun Hl; clear Hl; fin ]
  end.

Ltac step_submit Hrun fin :=
  lazymatch type of Hrun with
  | context [run_from _ (mbind _ (submit_application ?net ?payload ?signature))] =>
      let Hsub := fresh "Hsub" in
      let Henc := fresh "Henc" in
      let Hnet := fresh "Hnet" in
      let Hmsg := fresh "Hmsg" in
      let r := fresh "r" in
      pose proof (submit_application_run net payload signature) as Hsub;
      cbv zeta in Hsub;
      destruct (utf8_encode payload) eqn:Henc;
      [ run_with Hrun Hsub; clear Hsub; fin
      | destruct (net submission_url payload _) as [r |] eqn:Hnet;
        [ destruct (http_error_msg r) eqn:Hmsg;
          [ run_with Hrun Hsub; clear Hsub; fin
          | run_with Hrun Hsub; clear Hsub ]
        | run_with Hrun Hsub; clear Hsub; fin ] ]
  end.

(** Closes a goal about the calls of a run that has come to its end. *)
Ltac fin_calls run :=
  subst run; cbn [fst snd];
  split; [first [left; reflexivity | right; eexists; reflexivity] |];
  split; [first [discriminate | intros _; eexists; reflexivity] |];
  let code := fresh "code" in
  let Hx := fresh "Hx" in
  intros code Hx; first [discriminate Hx | inversion Hx; reflexivity].

(** In any run, on any standard output and whatever the environment, the
    clock and the network do, [main] calls [requests.post] at most once; it
    has called it once if it ends normally; and if it ends the process
    itself, the exit status is 1. *)
Theorem main_at_most_one_call
    (out : console) (environ : gmap str str) (now : datetime) (net : network) :
  (posted_bodies (main out environ now net).1 = []
   \/ exists body, posted_bodies (main out environ now net).1 = [body])
  /\ ((main out environ now net).2 = Return tt ->
      exists body, posted_bodies (main out environ now net).1 = [body])
  /\ (forall code, (main out environ now net).2 = Exit code -> code = 1).
Proof.
  remember (main out environ now net) as run eqn:Hrun.
  rewrite (run_from_start (main out environ now net)) in Hrun. unfold main in Hrun.
  step_print Hrun ltac:(fin_calls run).
  step_env Hrun ltac:(fin_calls run).
  do 2 (step_print Hrun ltac:(fin_calls run)).
  do 5 (step_env Hrun ltac:(fin_calls run)).
  do 2 (step_print Hrun ltac:(fin_calls run)).
  step_sign Hrun ltac:(fin_calls run).
  do 2 (step_print Hrun ltac:(fin_calls run)).
  step_submit Hrun ltac:(fin_calls run).
  do 3 (step_print Hrun ltac:(fin_calls run)).
  lazymatch type of Hrun with
  | context [run_from _ (print ?o ?s)] =>
      destruct (first_rejected o s) as [c |] eqn:Hlast;
      [ run_with Hrun (print_rejected o s c Hlast)
      | run_with Hrun (print_ok o s Hlast Hnl) ]
  end; fin_calls run.
Qed.

Section ResponseLines.
Variable out : console.
Hypothesis Hout : writes_ascii out.

Lemma headers_line (h : str) :
  first_rejected out (lit "Response Headers: " ++ h) = first_rejected out h.
Proof. apply labelled_line; [exact Hout | reflexivity]. Qed.

Lemma receipt_line (t : str) :
  first_rejected out (nl ++ lit "Submission Receipt:" ++ nl ++ t)
  = first_rejected out t.
Proof.
  rewrite (labelled_line out nl _ Hout eq_refl).
  rewrite (labelled_line out (lit "Submission Receipt:") _ Hout eq_refl).
  apply labelled_line; [exact Hout | reflexivity].
Qed.

End ResponseLines.

(** Shows that a stream writing every scalar value writes a line put
    together from texts that have a UTF-8 encoding. *)
Ltac scalar_line Hout :=
  apply first_rejected_none, writes_scalars_forallb; [exact Hout |];
  rewrite ?encodable_app;
  repeat (apply andb_true_intro; split);
  first [ assumption
        | apply encodable_str_of_N
        | apply encodable_generate_timestamp
        | unfold encodable; apply forallb_take; assumption
        | reflexivity ].

(** Brings the two lines about the response back to the texts they show. *)
Ltac response_lines Hascii :=
  repeat match goal with
         | H : first_rejected ?out (lit "Response Headers: " ++ _) = _ |- _ =>
             rewrite (headers_line out Hascii) in H
         | H : first_rejected ?out (nl ++ lit "Submission Receipt:" ++ _) = _ |- _ =>
             rewrite (receipt_line out Hascii) in H
         | H : forallb ?out _ = true |- _ => apply first_rejected_none in H
         end.

(** With the six variables usable and a signature computed, on a standard
    output that writes every Unicode scalar value, [main] calls
    [requests.post] exactly once; the body it passes is the text
    [create_payload] returned for the stripped values and the generated
    timestamp, the same text that was signed with the stripped secret, and
    the header carries that signature.  The run ends normally exactly when
    the call returns a response whose status is outside 400..599 and whose
    headers and text standard output can write. *)
Theorem main_posts_signed_payload
    (out : console) (environ : gmap str str) (now : datetime) (net : network)
    (signature : str) :
  let value (name : str) := strip (default [] (environ !! name)) in
  let payload :=
    create_payload (generate_timestamp now) (value (lit "B12_NAME")) (value (lit "B12_EMAIL"))
      (value (lit "B12_RESUME_LINK")) (value (lit "B12_REPOSITORY_LINK"))
      (value (lit "B12_ACTION_RUN_LINK")) in
  let headers :=
    [ (lit "Content-Type", lit "application/json");
      (lit "X-Signature-256", lit "sha256=" ++ signature) ] in
  writes_scalars out ->
  forallb (fun name => negb (falsy (environ !! name))) required_vars = true ->
  compute_signature payload (value (lit "B12_SECRET")) = Return signature ->
  posted_bodies (main out environ now net).1 = [payload]
  /\ PostCall submission_url payload headers 30 ∈ (main out environ now net).1
  /\ ((main out environ now net).2 = Return tt
      <-> exists r, net submission_url payload headers = Replied r
                    /\ http_error_msg r = None
                    /\ forallb out (headers_repr r) = true
                    /\ forallb out (text r) = true).
Proof.
  cbv beta zeta. intros Hout Hvars Hsig.
  pose proof (writes_scalars_ascii out Hout) as Hascii.
  pose proof (out_newline out Hascii) as Hnl.
  destruct (compute_signature_return_encodable _ _ _ Hsig) as (Hpe & Hse & Hte).
  unfold required_vars in Hvars. cbn [forallb] in Hvars.
  repeat match type of Hvars with
         | (negb _ && _) = true =>
             let E := fresh "E" in
             apply andb_prop in Hvars as [E Hvars]; apply negb_true_iff in E
         end.
  clear Hvars.
  remember (main out environ now net) as run eqn:Hrun.
  rewrite (run_from_start (main out environ now net)) in Hrun. unfold main in Hrun.
  print_by Hrun Hascii ltac:(scalar_line Hout).
  step_env Hrun idtac.
  do 2 (print_by Hrun Hascii ltac:(scalar_line Hout)).
  do 5 (step_env Hrun idtac).
  do 2 (print_by Hrun Hascii ltac:(scalar_line Hout)).
  lazymatch type of Hrun with
  | context [run_from _ (mbind _ (lift (compute_signature ?p ?s)))] =>
      assert (Hl : lift (compute_signature p s) = ([], Return signature))
        by (rewrite Hsig; reflexivity)
  end.
  run_with Hrun Hl. clear Hl.
  do 2 (print_by Hrun Hascii ltac:(scalar_line Hout)).
  destruct (utf8_encode_encodable _ Hpe) as [bs Hbs].
  step_submit Hrun
    ltac:(first
      [ discriminate Hbs
      | subst run; cbn [fst snd app];
        split; [reflexivity |];
        split; [apply list_elem_of_In; cbn [In]; do 7 right; left; reflexivity |];
        split; [discriminate |];
        let r' := fresh "r'" in
        let Hr' := fresh "Hr'" in
        let Hnone := fresh "Hnone" in
        intros (r' & Hr' & Hnone & _);
        first [discriminate Hr' | inversion Hr'; subst r'; congruence] ]).
  print_by Hrun Hascii ltac:(scalar_line Hout).
  do 2 (step_print Hrun
    ltac:(subst run; cbn [fst snd app];
          split; [reflexivity |];
          split; [apply list_elem_of_In; cbn [In]; do 7 right; left; reflexivity |];
          split; [discriminate |];
          let r' := fresh "r'" in
          let Hr' := fresh "Hr'" in
          let Hh' := fresh "Hh'" in
          let Ht' := fresh "Ht'" in
          intros (r' & Hr' & _ & Hh' & Ht');
          inversion Hr'; subst r'; response_lines Hascii; congruence)).
  print_by Hrun Hascii ltac:(scalar_line Hout).
  subst run. cbn [fst snd app].
  split; [reflexivity |].
  split; [apply list_elem_of_In; cbn [In]; do 7 right; left; reflexivity |].
  split; [| reflexivity].
  intros _. exists r. response_lines Hascii.
  repeat split; first [reflexivity | assumption | apply first_rejected_none; assumption].
Qed.

Lemma main_posts_signed_payload_witness :
  writes_scalars utf8_strict
  /\ forallb (fun name => negb (falsy (sample_environ !! name))) required_vars = true
  /\ compute_signature sample_payload (lit "s3cr3t")
     = Return (lit "0523e00097b06b20fd21d5f96c9d1d4d59d41476a9f718e81d8e76e5ee25f207")
  /\ posted_bodies (main utf8_strict sample_environ sample_now sample_network).1
     = [sample_payload].
Proof.
  assert (Hvars : forallb (fun name => negb (falsy (sample_environ !! name)))
                    required_vars = true) by (vm_compute; reflexivity).
  assert (Hsig : compute_signature sample_payload (lit "s3cr3t")
                 = Return (lit "0523e00097b06b20fd21d5f96c9d1d4d59d41476a9f718e81d8e76e5ee25f207"))
    by (vm_compute; reflexivity).
  split; [exact writes_scalars_utf8_strict |]. split; [exact Hvars |].
  split; [exact Hsig |].
  assert (Hpayload :
    create_payload (generate_timestamp sample_now)
      (strip (default [] (sample_environ !! lit "B12_NAME")))
      (strip (default [] (sample_environ !! lit "B12_EMAIL")))
      (strip (default [] (sample_environ !! lit "B12_RESUME_LINK")))
      (strip (default [] (sample_environ !! lit "B12_REPOSITORY_LINK")))
      (strip (default [] (sample_environ !! lit "B12_ACTION_RUN_LINK")))
    = sample_payload) by (vm_compute; reflexivity).
  assert (Hsecret : strip (default [] (sample_environ !! lit "B12_SECRET")) = lit "s3cr3t")
    by (vm_compute; reflexivity).
  pose proof (main_posts_signed_payload utf8_strict sample_environ sample_now
                sample_network
                (lit "0523e00097b06b20fd21d5f96c9d1d4d59d41476a9f718e81d8e76e5ee25f207")
                writes_scalars_utf8_strict Hvars) as H.
  cbv beta zeta in H. rewrite Hpayload, Hsecret in H.
  exact (proj1 (H Hsig)).
Defined.

(** ** Values without encoding *)

Lemma values_encodable (environ : gmap str str) (now : datetime) :
  forallb (fun name => encodable (strip (default [] (environ !! name)))) required_vars
  = encodable
      (create_payload (generate_timestamp now)
         (strip (default [] (environ !! lit "B12_NAME")))
         (strip (default [] (environ !! lit "B12_EMAIL")))
         (strip (default [] (environ !! lit "B12_RESUME_LINK")))
         (strip (default [] (environ !! lit "B12_REPOSITORY_LINK")))
         (strip (default [] (environ !! lit "B12_ACTION_RUN_LINK"))))
    && encodable (strip (default [] (environ !! lit "B12_SECRET"))).
Proof.
  rewrite encodable_create_payload, encodable_generate_timestamp.
  unfold required_vars. cbn [forallb].
  destruct (encodable (strip (default [] (environ !! lit "B12_SECRET")))),
    (encodable (strip (default [] (environ !! lit "B12_NAME")))),
    (encodable (strip (default [] (environ !! lit "B12_EMAIL")))),
    (encodable (strip (default [] (environ !! lit "B12_RESUME_LINK")))),
    (encodable (strip (default [] (environ !! lit "B12_REPOSITORY_LINK")))),
    (encodable (strip (default [] (environ !! lit "B12_ACTION_RUN_LINK"))));
    reflexivity.
Qed.

Lemma first_missing_none (environ : gmap str str) (name : str) :
  first_missing environ = None -> In name required_vars ->
  falsy (environ !! name) = false.
Proof.
  intros H Hin. destruct (falsy (environ !! name)) eqn:E; [| reflexivity].
  pose proof (find_none _ _ H name Hin) as Hn. cbv beta in Hn. congruence.
Qed.

(** Puts into the context that each of the six variables is usable. *)
Ltac all_usable Hfm environ :=
  pose proof (first_missing_none environ (lit "B12_SECRET") Hfm
                ltac:(cbn; tauto));
  pose proof (first_missing_none environ (lit "B12_NAME") Hfm
                ltac:(cbn; tauto));
  pose proof (first_missing_none environ (lit "B12_EMAIL") Hfm
                ltac:(cbn; tauto));
  pose proof (first_missing_none environ (lit "B12_RESUME_LINK") Hfm
                ltac:(cbn; tauto));
  pose proof (first_missing_none environ (lit "B12_REPOSITORY_LINK") Hfm
                ltac:(cbn; tauto));
  pose proof (first_missing_none environ (lit "B12_ACTION_RUN_LINK") Hfm
                ltac:(cbn; tauto)).

(** On a standard output that writes everything, the only error of a run
    with usable variables is that of signing. *)
Lemma main_unencodable_accept_all
    (environ : gmap str str) (now : datetime) (net : network) :
  first_missing environ = None ->
  ((exists c, (main accept_all environ now net).2 = Raise (UnicodeEncodeError c))
   <-> forallb (fun name => encodable (strip (default [] (environ !! name))))
         required_vars = false)
  /\ (forallb (fun name => encodable (strip (default [] (environ !! name))))
        required_vars = false ->
      posted_bodies (main accept_all environ now net).1 = []).
Proof.
  intros Hfm. all_usable Hfm environ. rewrite (values_encodable environ now).
  pose proof writes_ascii_accept_all as Hascii.
  remember (main accept_all environ now net) as run eqn:Hrun.
  rewrite (run_from_start (main accept_all environ now net)) in Hrun.
  unfold main in Hrun.
  print_by Hrun Hascii ltac:(apply first_rejected_accept_all).
  step_env Hrun idtac.
  do 2 (print_by Hrun Hascii ltac:(apply first_rejected_accept_all)).
  do 5 (step_env Hrun idtac).
  do 2 (print_by Hrun Hascii ltac:(apply first_rejected_accept_all)).
  step_sign Hrun
    ltac:(subst run; cbn [fst snd];
          match goal with
          | Hs : compute_signature _ _ = Raise (UnicodeEncodeError ?c) |- _ =>
              assert (Hbad : exists c', compute_signature _ _
                                        = Raise (UnicodeEncodeError c'))
                by (exists c; exact Hs);
              apply compute_signature_raises_iff in Hbad; rewrite Hbad
          end;
          split; [split; [reflexivity | eauto] | reflexivity]).
  destruct (compute_signature_return_encodable _ _ _ Hsig) as (Hpe & Hse & _).
  rewrite Hpe, Hse. cbn [andb].
  do 2 (print_by Hrun Hascii ltac:(apply first_rejected_accept_all)).
  destruct (utf8_encode_encodable _ Hpe) as [bs Hbs].
  step_submit Hrun
    ltac:(first
      [ discriminate Hbs
      | subst run; cbn [fst snd];
        split; [split; [intros [c Hc]; discriminate Hc | discriminate] | discriminate] ]).
  do 4 (print_by Hrun Hascii ltac:(apply first_rejected_accept_all)).
  subst run. cbn [fst snd].
  split; [split; [intros [c Hc]; discriminate Hc | discriminate] | discriminate].
Qed.

(** On any standard output, a run whose variables are usable but hold a
    code point without UTF-8 encoding ends with a [UnicodeEncodeError]
    before any call: at a [print], or at signing. *)
Lemma main_unencodable_any_console
    (out : console) (environ : gmap str str) (now : datetime) (net : network) :
  first_missing environ = None ->
  forallb (fun name => encodable (strip (default [] (environ !! name))))
    required_vars = false ->
  (exists c, (main out environ now net).2 = Raise (UnicodeEncodeError c))
  /\ posted_bodies (main out environ now net).1 = [].
Proof.
  intros Hfm Hbad. all_usable Hfm environ.
  rewrite (values_encodable environ now) in Hbad.
  apply compute_signature_raises_iff in Hbad as [c0 Hc0].
  remember (main out environ now net) as run eqn:Hrun.
  rewrite (run_from_start (main out environ now net)) in Hrun. unfold main in Hrun.
  step_print Hrun ltac:(subst run; cbn [fst snd]; split; [eauto | reflexivity]).
  step_env Hrun idtac.
  do 2 (step_print Hrun ltac:(subst run; cbn [fst snd]; split; [eauto | reflexivity])).
  do 5 (step_env Hrun idtac).
  do 2 (step_print Hrun ltac:(subst run; cbn [fst snd]; split; [eauto | reflexivity])).
  lazymatch type of Hrun with
  | context [run_from _ (mbind _ (lift (compute_signature ?p ?s)))] =>
      assert (Hl : lift (compute_signature p s) = ([], Raise (UnicodeEncodeError c0)))
        by (rewrite Hc0; reflexivity)
  end.
  run_with Hrun Hl. subst run. cbn [fst snd]. split; [eauto | reflexivity].
Qed.

(** With the six variables usable and one of the six stripped values holding
    a code point without UTF-8 encoding (a lone surrogate, as [os.environ]
    gives for an undecodable octet), [main] ends with a [UnicodeEncodeError]
    and has made no call, whatever standard output can write.  On a standard
    output that writes everything, this is the only way a run with usable
    variables ends with that error. *)
Theorem main_unencodable_value
    (out : console) (environ : gmap str str) (now : datetime) (net : network) :
  first_missing environ = None ->
  ((exists c, (main accept_all environ now net).2 = Raise (UnicodeEncodeError c))
   <-> forallb (fun name => encodable (strip (default [] (environ !! name))))
         required_vars = false)
  /\ (forallb (fun name => encodable (strip (default [] (environ !! name))))
        required_vars = false ->
      posted_bodies (main accept_all environ now net).1 = [])
  /\ (forallb (fun name => encodable (strip (default [] (environ !! name))))
        required_vars = false ->
      (exists c, (main out environ now net).2 = Raise (UnicodeEncodeError c))
      /\ posted_bodies (main out environ now net).1 = []).
Proof.
  intros Hfm.
  destruct (main_unencodable_accept_all environ now net Hfm) as [H1 H2].
  split; [exact H1 |]. split; [exact H2 |].
  exact (main_unencodable_any_console out environ now net Hfm).
Qed.

Lemma main_unencodable_value_witness :
  let environ := <[lit "B12_NAME" := [0x41; 0xDCE9]]> sample_environ in
  first_missing environ = None
  /\ (main accept_all environ sample_now sample_network).2
     = Raise (UnicodeEncodeError 0xDCE9)
  /\ (main utf8_strict environ sample_now sample_network).2
     = Raise (UnicodeEncodeError 0xDCE9)
  /\ posted_bodies (main accept_all environ sample_now sample_network).1 = []
  /\ posted_bodies (main utf8_strict environ sample_now sample_network).1 = [].
Proof.
  cbv zeta.
  assert (H : first_missing (<[lit "B12_NAME" := [0x41; 0xDCE9]]> sample_environ) = None)
    by (vm_compute; reflexivity).
  split; [exact H |]. split; [vm_compute; reflexivity |].
  split; [vm_compute; reflexivity |].
  destruct (main_unencodable_value utf8_strict _ sample_now sample_network H)
    as (_ & H2 & H3).
  split; [apply H2; vm_compute; reflexivity |].
  apply H3. vm_compute. reflexivity.
Defined.

(** ** Every call is well formed *)

(** Closes the case of a run that has come to its end, for a call [Hin] found
    in its trace. *)
Ltac fin_call Hin Hread run :=
  subst run; cbn [fst] in Hin; apply list_elem_of_In in Hin;
  cbn [In app] in Hin;
  repeat (destruct Hin as [Hin | Hin];
          [ first
              [ discriminate Hin
              | inversion Hin; subst; clear Hin;
                split; [reflexivity |]; split; [reflexivity |];
                split; [exact Hread |];
                match goal with
                | Hs : compute_signature _ _ = Return ?t |- _ =>
                    destruct (compute_signature_return_shape _ _ _ Hs);
                    exists t; auto
                end ]
          |]);
  contradiction.

(** Whatever call of [requests.post] a run of [main] makes is well formed,
    on any standard output: it goes to the fixed address with timeout 30;
    its body reads back as the six fields holding the generated timestamp
    and the stripped values of the environment; and its headers are the
    JSON content type and [X-Signature-256: sha256=<tag>], where the tag is
    what [compute_signature] returns for that very body and the stripped
    secret, 64 lowercase hexadecimal characters. *)
Theorem main_call_well_formed
    (out : console) (environ : gmap str str) (now : datetime) (net : network)
    (target data : str) (headers : list (str * str)) (timeout : N) :
  PostCall target data headers timeout ∈ (main out environ now net).1 ->
  let value (name : str) := strip (default [] (environ !! name)) in
  target = submission_url /\ timeout = 30
  /\ read_object data
     = Some [ (lit "action_run_link", value (lit "B12_ACTION_RUN_LINK"));
              (lit "email", value (lit "B12_EMAIL"));
              (lit "name", value (lit "B12_NAME"));
              (lit "repository_link", value (lit "B12_REPOSITORY_LINK"));
              (lit "resume_link", value (lit "B12_RESUME_LINK"));
              (lit "timestamp", generate_timestamp now) ]
  /\ exists tag,
       headers = [ (lit "Content-Type", lit "application/json");
                   (lit "X-Signature-256", lit "sha256=" ++ tag) ]
       /\ compute_signature data (value (lit "B12_SECRET")) = Return tag
       /\ length tag = 64%nat /\ forallb is_lower_hex tag = true.
Proof.
  cbv beta zeta. intros Hin.
  assert (Hread : read_object
    (create_payload (generate_timestamp now)
       (strip (default [] (environ !! lit "B12_NAME")))
       (strip (default [] (environ !! lit "B12_EMAIL")))
       (strip (default [] (environ !! lit "B12_RESUME_LINK")))
       (strip (default [] (environ !! lit "B12_REPOSITORY_LINK")))
       (strip (default [] (environ !! lit "B12_ACTION_RUN_LINK"))))
    = Some [ (lit "action_run_link", strip (default [] (environ !! lit "B12_ACTION_RUN_LINK")));
             (lit "email", strip (default [] (environ !! lit "B12_EMAIL")));
             (lit "name", strip (default [] (environ !! lit "B12_NAME")));
             (lit "repository_link", strip (default [] (environ !! lit "B12_REPOSITORY_LINK")));
             (lit "resume_link", strip (default [] (environ !! lit "B12_RESUME_LINK")));
             (lit "timestamp", generate_timestamp now) ]).
  { unfold create_payload. rewrite read_object_dumps, sorted_payload_items. reflexivity. }
  remember (main out environ now net) as run eqn:Hrun.
  rewrite (run_from_start (main out environ now net)) in Hrun. unfold main in Hrun.
  step_print Hrun ltac:(fin_call Hin Hread run).
  step_env Hrun ltac:(fin_call Hin Hread run).
  do 2 (step_print Hrun ltac:(fin_call Hin Hread run)).
  do 5 (step_env Hrun ltac:(fin_call Hin Hread run)).
  do 2 (step_print Hrun ltac:(fin_call Hin Hread run)).
  step_sign Hrun ltac:(fin_call Hin Hread run).
  do 2 (step_print Hrun ltac:(fin_call Hin Hread run)).
  step_submit Hrun ltac:(fin_call Hin Hread run).
  do 3 (step_print Hrun ltac:(fin_call Hin Hread run)).
  lazymatch type of Hrun with
  | context [run_from _ (print ?o ?s)] =>
      destruct (first_rejected o s) as [c |] eqn:Hlast;
      [ run_with Hrun (print_rejected o s c Hlast)
      | run_with Hrun (print_ok o s Hlast Hnl) ]
  end; fin_call Hin Hread run.
Qed.

Lemma main_call_well_formed_witness :
  let headers :=
    [ (lit "Content-Type", lit "application/json");
      (lit "X-Signature-256",
       lit "sha256=0523e00097b06b20fd21d5f96c9d1d4d59d41476a9f718e81d8e76e5ee25f207") ] in
  PostCall submission_url sample_payload headers 30
    ∈ (main utf8_strict sample_environ sample_now sample_network).1
  /\ exists tag,
       headers = [ (lit "Content-Type", lit "application/json");
                   (lit "X-Signature-256", lit "sha256=" ++ tag) ]
       /\ length tag = 64%nat.
Proof.
  cbv zeta.
  assert (Hin : PostCall submission_url sample_payload
                  [ (lit "Content-Type", lit "application/json");
                    (lit "X-Signature-256",
                     lit "sha256=0523e00097b06b20fd21d5f96c9d1d4d59d41476a9f718e81d8e76e5ee25f207") ]
                  30
                ∈ (main utf8_strict sample_environ sample_now sample_network).1).
  { apply list_elem_of_In. vm_compute. do 7 right. left. reflexivity. }
  split; [exact Hin |].
  destruct (main_call_well_formed _ _ _ _ _ _ _ _ Hin)
    as (_ & _ & _ & tag & Hh & _ & Hlen & _).
  exists tag. split; [exact Hh | exact Hlen].
Defined.
